(** * gmaps.directions: the directions layer of a notebook map widget

    A shallow embedding of [gmaps/directions.py]: the legacy [data]
    normalisation, the bounding box of a route, the trait setters with
    their validators and observers, and the constructor.

    Coordinates are Python floats.  The code only compares them ([min],
    [max], [<=], [==]); it never does arithmetic on them.  A finite
    double denotes a rational and comparing two finite doubles is
    comparing the rationals they denote, so a coordinate is a [Q]; NaN
    and the infinities, which no latitude or longitude is, have no
    counterpart here.  Two representations of one rational ([0#1] and
    [0#2]) are distinct values that compare equal, as [0.0] and [-0.0]
    do in Python: value identity is Leibniz equality, Python's [==] is
    [Qeq].

    The traits [_view_name] and [_model_name] and the class attribute
    [has_bounds] are constants of the browser protocol and are left out,
    as is the traffic with the browser itself. *)

From Stdlib Require Import ZArith QArith Bool List String Ascii Lia.
Import ListNotations.
Local Open Scope Q_scope.

(** ** Python built-ins used by the module *)

Module Py.

(** Exceptions raised by the module or by what it calls; [Exception]
    stands for any class not named here. *)
Inductive exn : Type :=
| ValueError (msg : string)
| IndexError
| TraitError
| Exception (message : string)
| DirectionsServiceException (msg : string).

(** [x < y] and [x > y] on floats. *)
Definition ltb (x y : Q) : bool := negb (Qle_bool y x).
Definition gtb (x y : Q) : bool := ltb y x.

(** [min(iterable)]: the first item is the candidate, a later item
    replaces it only when strictly smaller; [ValueError] on an empty
    iterable. *)
Definition min_step (best item : Q) : Q := if ltb item best then item else best.
Definition max_step (best item : Q) : Q := if gtb item best then item else best.

Definition min (items : list Q) : exn + Q :=
  match items with
  | [] => inl (ValueError "min() arg is an empty sequence")
  | x :: rest => inr (fold_left min_step rest x)
  end.

Definition max (items : list Q) : exn + Q :=
  match items with
  | [] => inl (ValueError "max() arg is an empty sequence")
  | x :: rest => inr (fold_left max_step rest x)
  end.

(** [l[i]] with Python's negative indices; [IndexError] out of range. *)
Definition index {A} (l : list A) (i : Z) : exn + A :=
  let n := Z.of_nat (List.length l) in
  let j := (if i <? 0 then i + n else i)%Z in
  if ((j <? 0) || (n <=? j))%Z then inl IndexError
  else match nth_error l (Z.to_nat j) with
       | Some a => inr a
       | None => inl IndexError
       end.

(** A slice bound: negative bounds count from the end, and the result
    is clamped to [0, len]. *)
Definition slice_bound (n i : Z) : Z :=
  let j := (if i <? 0 then i + n else i)%Z in
  Z.max 0 (Z.min n j).

(** [l[lo:hi]]. *)
Definition slice {A} (l : list A) (lo hi : Z) : list A :=
  let n := Z.of_nat (List.length l) in
  let a := slice_bound n lo in
  let b := slice_bound n hi in
  firstn (Z.to_nat (b - a)) (skipn (Z.to_nat a) l).

End Py.

(** ** Points and routes *)

(** A [(latitude, longitude)] tuple; [row[0]] is [fst], [row[1]] is [snd]. *)
Definition point : Type := (Q * Q)%type.

Definition latitude (row : point) : Q := fst row.
Definition longitude (row : point) : Q := snd row.

(** [Directions._destructure_data] *)
Definition _destructure_data (data : list point)
  : Py.exn + (point * point * list point) :=
  match Py.index data 0 with
  | inl e => inl e
  | inr start =>
      match Py.index data (-1) with
      | inl e => inl e
      | inr end_ =>
          let waypoints := Py.slice data 1 (-1) in
          inr (start, end_, waypoints)
      end
  end.

(** The arithmetic of [Directions._calc_bounds] on the list
    [all_data = [self.start] + self.waypoints + [self.end]]: four
    generator expressions, each consumed by one [min] or [max]. *)
Definition bounds_of (all_data : list point) : Py.exn + list point :=
  match Py.min (map latitude all_data) with
  | inl e => inl e
  | inr min_latitude =>
  match Py.min (map longitude all_data) with
  | inl e => inl e
  | inr min_longitude =>
  match Py.max (map latitude all_data) with
  | inl e => inl e
  | inr max_latitude =>
  match Py.max (map longitude all_data) with
  | inl e => inl e
  | inr max_longitude =>
      inr [ (min_latitude, min_longitude); (max_latitude, max_longitude) ]
  end end end end.

(** The reference the bounding box is compared with: one traversal that
    carries the four extrema, started at the first point. *)
Record extrema : Type := mk_extrema {
  lo_lat : Q; lo_lon : Q; hi_lat : Q; hi_lon : Q }.

Definition extrema_step (acc : extrema) (row : point) : extrema :=
  {| lo_lat := if Py.ltb (latitude row) (lo_lat acc) then latitude row else lo_lat acc;
     lo_lon := if Py.ltb (longitude row) (lo_lon acc) then longitude row else lo_lon acc;
     hi_lat := if Py.gtb (latitude row) (hi_lat acc) then latitude row else hi_lat acc;
     hi_lon := if Py.gtb (longitude row) (hi_lon acc) then longitude row else hi_lon acc |}.

Definition single_pass_bounds (all_data : list point) : option (list point) :=
  match all_data with
  | [] => None
  | first :: rest =>
      let acc := fold_left extrema_step rest
                   (mk_extrema (latitude first) (longitude first)
                               (latitude first) (longitude first)) in
      Some [ (lo_lat acc, lo_lon acc); (hi_lat acc, hi_lon acc) ]
  end.

(** ** Warnings and output *)

(** What a run writes besides the widget state: warnings handed to
    [warnings.warn] and lines printed to standard output. *)
Inductive event : Type :=
| DeprecationWarning (message : string)
| Print (line : string).

(** The double-quote character of the messages. *)
Definition dq : string :=
  String (Ascii false true false false false true false false) EmptyString.

Definition obsolete_data_message : string :=
  ("The " ++ dq ++ "data" ++ dq ++ " traitlet is deprecated, and will be "
   ++ "removed in jupyter-gmaps 0.9.0. "
   ++ "Use " ++ dq ++ "locations" ++ dq ++ " instead.")%string.

Definition obsolete_waypoints_message : string :=
  ("Passing " ++ dq ++ "None" ++ dq ++ " to waypoints is deprecated, and will be "
   ++ "removed in jupyter-gmaps 0.9.0. "
   ++ "Pass an empty list.")%string.

Definition both_data_and_route_message : string :=
  ("Cannot set both data and one of " ++ dq ++ "start" ++ dq ++ ", "
   ++ dq ++ "end" ++ dq ++ "or " ++ dq ++ "waypoints" ++ dq ++ ".")%string.

Definition ALLOWED_TRAVEL_MODES : list string :=
  ["BICYCLING"; "DRIVING"; "TRANSIT"; "WALKING"]%string.
Definition DEFAULT_TRAVEL_MODE : string := "DRIVING"%string.

(** ** The widget state *)

(** The traits of a constructed [Directions] object.  [start], [end] and
    [waypoints] hold validated values; [data] is the deprecated trait
    ([None] or a list); [data_bounds] is [List()], empty by default. *)
Record Directions : Type := mk_Directions {
  start : point;
  end_ : point;
  waypoints : list point;
  data : option (list point);
  data_bounds : list point;
  avoid_ferries : bool;
  avoid_highways : bool;
  avoid_tolls : bool;
  optimize_waypoints : bool;
  travel_mode : string;
  layer_status : string }.

Definition with_start (v : point) (self : Directions) : Directions :=
  mk_Directions v (end_ self) (waypoints self) (data self) (data_bounds self)
    (avoid_ferries self) (avoid_highways self) (avoid_tolls self)
    (optimize_waypoints self) (travel_mode self) (layer_status self).

Definition with_end (v : point) (self : Directions) : Directions :=
  mk_Directions (start self) v (waypoints self) (data self) (data_bounds self)
    (avoid_ferries self) (avoid_highways self) (avoid_tolls self)
    (optimize_waypoints self) (travel_mode self) (layer_status self).

Definition with_waypoints (v : list point) (self : Directions) : Directions :=
  mk_Directions (start self) (end_ self) v (data self) (data_bounds self)
    (avoid_ferries self) (avoid_highways self) (avoid_tolls self)
    (optimize_waypoints self) (travel_mode self) (layer_status self).

Definition with_data (v : option (list point)) (self : Directions) : Directions :=
  mk_Directions (start self) (end_ self) (waypoints self) v (data_bounds self)
    (avoid_ferries self) (avoid_highways self) (avoid_tolls self)
    (optimize_waypoints self) (travel_mode self) (layer_status self).

Definition with_data_bounds (v : list point) (self : Directions) : Directions :=
  mk_Directions (start self) (end_ self) (waypoints self) (data self) v
    (avoid_ferries self) (avoid_highways self) (avoid_tolls self)
    (optimize_waypoints self) (travel_mode self) (layer_status self).

Definition with_layer_status (v : string) (self : Directions) : Directions :=
  mk_Directions (start self) (end_ self) (waypoints self) (data self)
    (data_bounds self) (avoid_ferries self) (avoid_highways self)
    (avoid_tolls self) (optimize_waypoints self) (travel_mode self) v.

(** [[self.start] + self.waypoints + [self.end]] *)
Definition all_data (self : Directions) : list point :=
  [start self] ++ waypoints self ++ [end_ self].

(** ** Runs: state, events and exceptions *)

(** A piece of Python code running on a state [S]: it returns the events
    it emitted, the state it left behind, and either the exception it
    raised or its value.  The state is kept when an exception is raised:
    what an assignment stored before raising stays stored. *)
Definition M (S A : Type) : Type := S -> list event * S * (Py.exn + A).

Definition ret {S A} (a : A) : M S A := fun s => ([], s, inr a).

Definition raise {S A} (e : Py.exn) : M S A := fun s => ([], s, inl e).

Definition bind {S A B} (m : M S A) (k : A -> M S B) : M S B :=
  fun s =>
    match m s with
    | (ev, s1, inl e) => (ev, s1, inl e)
    | (ev, s1, inr a) =>
        match k a s1 with
        | (ev2, s2, r) => (ev ++ ev2, s2, r)
        end
    end.

Definition emit {S} (e : event) : M S unit := fun s => ([e], s, inr tt).
Definition gets {S A} (f : S -> A) : M S A := fun s => ([], s, inr (f s)).
Definition modify {S} (f : S -> S) : M S unit := fun s => ([], f s, inr tt).
Definition lift {S A} (r : Py.exn + A) : M S A := fun s => ([], s, r).

Declare Scope run_scope.
Delimit Scope run_scope with run.
Notation "x <- c1 ;; c2" := (bind c1 (fun x => c2))
  (at level 61, c1 at next level, right associativity) : run_scope.
Notation "c1 ;; c2" := (bind c1 (fun _ => c2))
  (at level 61, right associativity) : run_scope.
Local Open Scope run_scope.

(** Projections of a run's result. *)
Definition events_of {S A} (r : list event * S * (Py.exn + A)) : list event := fst (fst r).
Definition state_of {S A} (r : list event * S * (Py.exn + A)) : S := snd (fst r).
Definition outcome_of {S A} (r : list event * S * (Py.exn + A)) : Py.exn + A := snd r.

Definition _warn_obsolete_data {S} : M S unit :=
  emit (DeprecationWarning obsolete_data_message).

Definition _warn_obsolete_waypoints {S} : M S unit :=
  emit (DeprecationWarning obsolete_waypoints_message).

(** ** Python's [==] on trait values *)

Definition point_eqb (a b : point) : bool :=
  Qeq_bool (fst a) (fst b) && Qeq_bool (snd a) (snd b).

Fixpoint points_eqb (l1 l2 : list point) : bool :=
  match l1, l2 with
  | [], [] => true
  | a :: r1, b :: r2 => point_eqb a b && points_eqb r1 r2
  | _, _ => false
  end.

Definition data_eqb (a b : option (list point)) : bool :=
  match a, b with
  | None, None => true
  | Some l1, Some l2 => points_eqb l1 l2
  | _, _ => false
  end.

Definition is_None {A} (v : option A) : bool :=
  match v with None => true | Some _ => false end.

Definition is_TraitError (e : Py.exn) : bool :=
  match e with Py.TraitError => true | _ => false end.

(** ** Keyword arguments of the constructor *)

(** [**kwargs] of [Directions.__init__]: the documented keywords other
    than the named parameters.  [None] in a field is a keyword that is
    absent; for [data], absent and [data=None] are the same to the code,
    which reads it with [kwargs.get('data')]. *)
Record Kwargs : Type := mk_Kwargs {
  kw_data : option (list point);
  kw_travel_mode : option string;
  kw_avoid_ferries : option bool;
  kw_avoid_highways : option bool;
  kw_avoid_tolls : option bool;
  kw_optimize_waypoints : option bool }.

Definition no_kwargs : Kwargs := mk_Kwargs None None None None None None.

(** [kwargs.get('waypoints')]: [waypoints] is a named parameter of
    [__init__], a call binds the keyword there, and [**kwargs] never has
    the key. *)
Definition kwargs_get_waypoints (kwargs : Kwargs) : option (list point) := None.

(** [kwargs] after [kwargs.update(dict(start=..., end=..., waypoints=...))].
    The three keys are new, so they come after the keywords of the call.
    [data] is [None] or absent at that point in both branches. *)
Record TraitKwargs : Type := mk_TraitKwargs {
  tk_rest : Kwargs;
  tk_start : option point;
  tk_end : option point;
  tk_waypoints : list point }.

(** Notifications held back by [hold_trait_notifications]: the trait that
    changed and the value it had before. *)
Inductive change : Type :=
| change_start (old : point)
| change_end (old : point)
| change_waypoints (old : list point).

Definition same_trait (c d : change) : bool :=
  match c, d with
  | change_start _, change_start _ => true
  | change_end _, change_end _ => true
  | change_waypoints _, change_waypoints _ => true
  | _, _ => false
  end.

(** The object together with the cache of held notifications. *)
Definition held : Type := (Directions * list change)%type.

Definition on_self {A} (m : M Directions A) : M held A :=
  fun h =>
    match m (fst h) with
    | (ev, self, r) => (ev, (self, snd h), r)
    end.

(** A held notification; a second change of a trait is merged into the
    first, which keeps its old value. *)
Definition hold (c : change) : M held unit :=
  modify (fun h : held =>
            if existsb (same_trait c) (snd h) then h
            else (fst h, snd h ++ [c])).

Fixpoint for_each {S A} (items : list A) (body : A -> M S unit) : M S unit :=
  match items with
  | [] => ret tt
  | x :: rest => body x ;; for_each rest body
  end.

(** Restoring the old values of the held changes. *)
Definition rollback (cache : list change) (self : Directions) : Directions :=
  fold_left (fun s c =>
               match c with
               | change_start old => with_start old s
               | change_end old => with_end old s
               | change_waypoints old => with_waypoints old s
               end) cache self.

(** ** Traits, validators and observers *)

Section Traits.

(** The exception that the validators of [geotraitlets] raise on a
    coordinate out of range.  The module [geotraitlets] is not among the
    sources; which exception class it uses decides whether
    [hold_trait_notifications] rolls back ([TraitError]) or not (any
    other class), so it is left open. *)
Variable invalid_point : Py.exn.

(** Modelled from the spec: [geotraitlets.Point] and
    [geotraitlets.LocationArray], which are not among the sources.  The
    layer "validates geographic inputs"; the ranges are those of the
    class documentation: a latitude lies between -90 and 90, a longitude
    between -180 and 180. *)
Definition valid_latitude (value : Q) : bool :=
  Qle_bool (-90) value && Qle_bool value 90.

(** Modelled from the spec: the range of a longitude, as above. *)
Definition valid_longitude (value : Q) : bool :=
  Qle_bool (-180) value && Qle_bool value 180.

(** Modelled from the spec: a pair is valid when both its coordinates
    are; [geotraitlets.Point] is missing. *)
Definition valid_point (p : point) : bool :=
  valid_latitude (latitude p) && valid_longitude (longitude p).

(** Modelled from the spec: the validation of a [Point] trait.  [None]
    is not a point: [start] and [end] are declared without [allow_none],
    which the class spells out where it wants it (on [data]). *)
Definition Point_validate (value : option point) : Py.exn + point :=
  match value with
  | None => inl Py.TraitError
  | Some p => if valid_point p then inr p else inl invalid_point
  end.

(** Modelled from the spec: the validation of a [LocationArray] trait on
    a list, element by element. *)
Definition LocationArray_validate_list (value : list point) : Py.exn + list point :=
  if forallb valid_point value then inr value else inl invalid_point.

(** Modelled from the spec: the validation of a [LocationArray] trait.
    [None] is not a list of locations: [waypoints] is declared without
    [allow_none], as [start] and [end] are and unlike [data] on the next
    line, and the trait type refuses it before any [@validate] hook is
    asked.  What is accepted is handed
    on to the hook as [proposal['value']]. *)
Definition LocationArray_validate (value : option (list point))
  : Py.exn + option (list point) :=
  match value with
  | None => inl Py.TraitError
  | Some l =>
      match LocationArray_validate_list l with
      | inl e => inl e
      | inr l' => inr (Some l')
      end
  end.

(** [List(minlen=2, allow_none=True, default_value=None)] *)
Definition data_validate (value : option (list point))
  : Py.exn + option (list point) :=
  match value with
  | None => inr None
  | Some l => if (2 <=? List.length l)%nat then inr (Some l) else inl Py.TraitError
  end.

(** [Enum(ALLOWED_TRAVEL_MODES, default_value=DEFAULT_TRAVEL_MODE)] *)
Definition travel_mode_validate (value : string) : Py.exn + string :=
  if existsb (String.eqb value) ALLOWED_TRAVEL_MODES then inr value
  else inl Py.TraitError.

(** [Directions._valid_waypoints], the [@validate('waypoints')] hook, on
    [proposal['value']]. *)
Definition _valid_waypoints (proposal_value : option (list point))
  : M Directions (list point) :=
  emit (Print "validating") ;;
  match proposal_value with
  | None => _warn_obsolete_waypoints ;; ret []
  | Some value => ret value
  end.

(** [Directions._calc_bounds], the observer of [start], [end] and
    [waypoints].  The assignment to [self.data_bounds] stores the list;
    no observer is registered on that trait. *)
Definition _calc_bounds : M Directions unit :=
  all_data <- gets all_data ;;
  bounds <- lift (bounds_of all_data) ;;
  modify (with_data_bounds bounds).

(** [Directions._handle_layer_status], the observer of [layer_status],
    on [change["new"]]. *)
Definition _handle_layer_status (new : string) : M Directions unit :=
  if negb (String.eqb new "OK") then
    raise (Py.DirectionsServiceException ("No directions returned: " ++ new))
  else ret tt.

(** *** Assignments outside [hold_trait_notifications]

    [TraitType.set]: the value is validated by the trait type, then by
    the [@validate] hook if there is one; the result is stored; the
    observers run when the stored value differs ([!=]) from the one it
    replaces.  A validator that raises leaves the trait as it was. *)

Definition setattr_start (value : option point) : M Directions unit :=
  new <- lift (Point_validate value) ;;
  old <- gets start ;;
  modify (with_start new) ;;
  if point_eqb old new then ret tt else _calc_bounds.

Definition setattr_end (value : option point) : M Directions unit :=
  new <- lift (Point_validate value) ;;
  old <- gets end_ ;;
  modify (with_end new) ;;
  if point_eqb old new then ret tt else _calc_bounds.

Definition setattr_waypoints (value : option (list point)) : M Directions unit :=
  checked <- lift (LocationArray_validate value) ;;
  new <- _valid_waypoints checked ;;
  old <- gets waypoints ;;
  modify (with_waypoints new) ;;
  if points_eqb old new then ret tt else _calc_bounds.

(** [CUnicode]: the status arrives as a string. *)
Definition setattr_layer_status (value : string) : M Directions unit :=
  old <- gets layer_status ;;
  modify (with_layer_status value) ;;
  if String.eqb old value then ret tt else _handle_layer_status value.

(** *** Assignments inside [hold_trait_notifications]

    The value is validated by the trait type and stored; the hook and the
    notification wait for the end of the block. *)

Definition held_set_start (value : option point) : M held unit :=
  new <- lift (Point_validate value) ;;
  old <- gets (fun h : held => start (fst h)) ;;
  modify (fun h : held => (with_start new (fst h), snd h)) ;;
  if point_eqb old new then ret tt else hold (change_start old).

Definition held_set_end (value : option point) : M held unit :=
  new <- lift (Point_validate value) ;;
  old <- gets (fun h : held => end_ (fst h)) ;;
  modify (fun h : held => (with_end new (fst h), snd h)) ;;
  if point_eqb old new then ret tt else hold (change_end old).

Definition held_set_waypoints (value : list point) : M held unit :=
  new <- lift (LocationArray_validate_list value) ;;
  old <- gets (fun h : held => waypoints (fst h)) ;;
  modify (fun h : held => (with_waypoints new (fst h), snd h)) ;;
  if points_eqb old new then ret tt else hold (change_waypoints old).

(** End of the block, first step: the value of each trait that changed
    goes through its hook and is stored again, still held. *)
Definition cross_validate (c : change) : M held unit :=
  match c with
  | change_start _ =>
      value <- gets (fun h : held => start (fst h)) ;;
      held_set_start (Some value)
  | change_end _ =>
      value <- gets (fun h : held => end_ (fst h)) ;;
      held_set_end (Some value)
  | change_waypoints _ =>
      value <- gets (fun h : held => waypoints (fst h)) ;;
      value' <- on_self (_valid_waypoints (Some value)) ;;
      held_set_waypoints value'
  end.

(** End of the block, last step: the observers of a trait that changed.
    The three traits share one observer. *)
Definition notify_change (c : change) : M Directions unit := _calc_bounds.

(** [with self.hold_trait_notifications(): body].  A [TraitError] in the
    body or in the hooks restores the old values and drops the held
    notifications; any other exception leaves what was stored and the
    held notifications are still delivered on the way out. *)
Definition hold_trait_notifications (body : M held unit) : M Directions unit :=
  fun self =>
    match (body ;;
           cache <- gets (fun h : held => snd h) ;;
           for_each cache cross_validate) (self, []) with
    | (ev, (self1, cache), inl e) =>
        if is_TraitError e then (ev, rollback cache self1, inl e)
        else
          match for_each cache notify_change self1 with
          | (ev2, self2, inl e2) => (ev ++ ev2, self2, inl e2)
          | (ev2, self2, inr _) => (ev ++ ev2, self2, inl e)
          end
    | (ev, (self1, cache), inr _) =>
        match for_each cache notify_change self1 with
        | (ev2, self2, r) => (ev ++ ev2, self2, r)
        end
    end.

(** [Directions._on_data_change], the observer of [data], on
    [change['new']]. *)
Definition _on_data_change (new : option (list point)) : M Directions unit :=
  match new with
  | Some data =>
      _warn_obsolete_data ;;
      hold_trait_notifications
        (parts <- lift (_destructure_data data) ;;
         let '(start, end_, waypoints) := parts in
         held_set_start (Some start) ;;
         held_set_end (Some end_) ;;
         held_set_waypoints waypoints)
  | None => ret tt
  end.

Definition setattr_data (value : option (list point)) : M Directions unit :=
  new <- lift (data_validate value) ;;
  old <- gets data ;;
  modify (with_data new) ;;
  if data_eqb old new then ret tt else _on_data_change new.

(** *** Construction *)

Definition keyword_or {A} (default : A) (keyword : option A) : A :=
  match keyword with Some v => v | None => default end.

(** The object that exists once a run of [M Directions] on it is over;
    no object if the run raised. *)
Definition created (self : Directions) (m : M Directions unit) : M unit Directions :=
  fun _ =>
    match m self with
    | (ev, _, inl e) => (ev, tt, inl e)
    | (ev, self', inr _) => (ev, tt, inr self')
    end.

(** [super(Directions, self).__init__], called with [kwargs]: every keyword is
    assigned to its trait inside one [hold_trait_notifications] block, in
    the order of [kwargs] (the keywords of the call, then [start], [end],
    [waypoints]).  Of the keywords of the call only [travel_mode] can be
    refused; a refusal anywhere ends the construction.  No trait has a
    value before, so each of [start], [end], [waypoints] counts as
    changed: at the end of the block the [waypoints] hook runs and the
    observer is called once per trait.  Opening the channel to the
    browser is left out. *)
Definition HasTraits___init__ (kwargs : TraitKwargs) : M unit Directions :=
  let rest := tk_rest kwargs in
  mode <- lift (match kw_travel_mode rest with
                | Some m => travel_mode_validate m
                | None => inr DEFAULT_TRAVEL_MODE
                end) ;;
  start <- lift (Point_validate (tk_start kwargs)) ;;
  end_ <- lift (Point_validate (tk_end kwargs)) ;;
  waypoints <- lift (LocationArray_validate_list (tk_waypoints kwargs)) ;;
  let self :=
    mk_Directions start end_ waypoints None []
      (keyword_or false (kw_avoid_ferries rest))
      (keyword_or false (kw_avoid_highways rest))
      (keyword_or false (kw_avoid_tolls rest))
      (keyword_or false (kw_optimize_waypoints rest))
      mode EmptyString in
  created self
    (value <- _valid_waypoints (Some waypoints) ;;
     checked <- lift (LocationArray_validate_list value) ;;
     modify (with_waypoints checked) ;;
     _calc_bounds ;; _calc_bounds ;; _calc_bounds).

Definition with_kw_data (v : option (list point)) (kwargs : Kwargs) : Kwargs :=
  mk_Kwargs v (kw_travel_mode kwargs) (kw_avoid_ferries kwargs)
    (kw_avoid_highways kwargs) (kw_avoid_tolls kwargs)
    (kw_optimize_waypoints kwargs).

(** [Directions.__init__(self, start=None, end=None, waypoints=None, **kwargs)] *)
Definition Directions___init__ (start end_ : option point)
    (waypoints : option (list point)) (kwargs : Kwargs) : M unit Directions :=
  match kw_data kwargs with
  | Some data =>
      _warn_obsolete_data ;;
      let waypoints := kwargs_get_waypoints kwargs in
      if is_None start && is_None end_ && is_None waypoints then
        parts <- lift (_destructure_data data) ;;
        let '(start, end_, waypoints) := parts in
        HasTraits___init__
          (mk_TraitKwargs (with_kw_data None kwargs)
             (Some start) (Some end_) waypoints)
      else raise (Py.ValueError both_data_and_route_message)
  | None =>
      waypoints <- match waypoints with
                   | None => _warn_obsolete_waypoints ;; ret []
                   | Some w => ret w
                   end ;;
      HasTraits___init__ (mk_TraitKwargs kwargs start end_ waypoints)
  end.

(** [directions_layer]: the factory. *)
Definition directions_layer (start end_ : option point)
    (waypoints : option (list point)) (avoid_ferries : bool)
    (travel_mode : string) (avoid_highways avoid_tolls optimize_waypoints : bool)
  : M unit Directions :=
  Directions___init__ start end_ waypoints
    (mk_Kwargs None (Some travel_mode) (Some avoid_ferries)
       (Some avoid_highways) (Some avoid_tolls) (Some optimize_waypoints)).

(** ** The vocabulary of the specification *)

(** [p] lies in the rectangle with corners [lo] and [hi]. *)
Definition within (lo hi p : point) : Prop :=
  (latitude lo <= latitude p /\ latitude p <= latitude hi) /\
  (longitude lo <= longitude p /\ longitude p <= longitude hi).

(** [box] is [[lo; hi]], every point of [pts] lies within it and each of
    its four sides goes through a point of [pts]. *)
Definition is_bounding_box (pts box : list point) : Prop :=
  exists lo hi,
    box = [lo; hi] /\
    (forall p, In p pts -> within lo hi p) /\
    (exists p, In p pts /\ latitude p = latitude lo) /\
    (exists p, In p pts /\ longitude p = longitude lo) /\
    (exists p, In p pts /\ latitude p = latitude hi) /\
    (exists p, In p pts /\ longitude p = longitude hi).

(** [box] is a list of two corners, the first below the second. *)
Definition bounds_shape (box : list point) : Prop :=
  exists lo hi,
    box = [lo; hi] /\
    latitude lo <= latitude hi /\ longitude lo <= longitude hi.

(** What [_calc_bounds] stores for a route that starts with [first]. *)
Definition route_box (first : point) (rest : list point) : list point :=
  [ (fold_left Py.min_step (map latitude rest) (latitude first),
     fold_left Py.min_step (map longitude rest) (longitude first));
    (fold_left Py.max_step (map latitude rest) (latitude first),
     fold_left Py.max_step (map longitude rest) (longitude first)) ].

(** The stored route holds valid points only. *)
Definition valid_state (self : Directions) : bool :=
  valid_point (start self) && valid_point (end_ self)
  && forallb valid_point (waypoints self).

(** The points the object shares with the browser: the route and the
    corners of its box. *)
Definition stored_points (self : Directions) : list point :=
  all_data self ++ data_bounds self.

(** All of them are valid. *)
Definition valid_widget (self : Directions) : bool :=
  valid_state self && forallb valid_point (data_bounds self).

(** A successful assignment to [start], [end], [waypoints] or [data]. *)
Inductive route_update : Directions -> Directions -> Prop :=
| update_start value self ev self' :
    setattr_start value self = (ev, self', inr tt) -> route_update self self'
| update_end value self ev self' :
    setattr_end value self = (ev, self', inr tt) -> route_update self self'
| update_waypoints value self ev self' :
    setattr_waypoints value self = (ev, self', inr tt) -> route_update self self'
| update_data value self ev self' :
    setattr_data value self = (ev, self', inr tt) -> route_update self self'.

(** The stored route after differs ([!=]) from the one before in at
    least one of the three traits. *)
Definition route_differs (self self' : Directions) : bool :=
  negb (point_eqb (start self) (start self'))
  || negb (point_eqb (end_ self) (end_ self'))
  || negb (points_eqb (waypoints self) (waypoints self')).

(** The traits the route assignments have no business with. *)
Definition same_options (self self' : Directions) : Prop :=
  travel_mode self' = travel_mode self /\
  avoid_ferries self' = avoid_ferries self /\
  avoid_highways self' = avoid_highways self /\
  avoid_tolls self' = avoid_tolls self /\
  optimize_waypoints self' = optimize_waypoints self /\
  layer_status self' = layer_status self.

(** A point with a latitude in [-90, 90] and a longitude in
    [-180, 180]; a point with one of the two outside. *)
Definition in_range (p : point) : Prop :=
  (-90 <= latitude p /\ latitude p <= 90) /\
  (-180 <= longitude p /\ longitude p <= 180).

Definition out_of_range (p : point) : Prop := ~ in_range p.

(** Sample points: Geneva, Zurich, Amsterdam, and a latitude of 100. *)
Definition geneva : point := (462 # 10, 61 # 10).
Definition zurich : point := (474 # 10, 85 # 10).
Definition amsterdam : point := (5237403 # 100000, 488969 # 100000).
Definition off_the_map : point := (100, 0).

(** The layer of the class documentation: from Geneva to Zurich by way
    of Amsterdam, as the constructor leaves it. *)
Definition sample_layer : Directions :=
  mk_Directions geneva zurich [amsterdam] None
    [ (462 # 10, 488969 # 100000); (5237403 # 100000, 85 # 10) ]
    false false false false "DRIVING" EmptyString.

Definition sample_data : list point := [geneva; amsterdam; zurich].

(** ** More of the object's life *)

Definition with_travel_mode (v : string) (self : Directions) : Directions :=
  mk_Directions (start self) (end_ self) (waypoints self) (data self)
    (data_bounds self) (avoid_ferries self) (avoid_highways self)
    (avoid_tolls self) (optimize_waypoints self) v (layer_status self).

(** Assigning [travel_mode], an [Enum] over [ALLOWED_TRAVEL_MODES]: the
    class has neither a hook nor an observer on it. *)
Definition setattr_travel_mode (value : string) : M Directions unit :=
  new <- lift (travel_mode_validate value) ;;
  modify (with_travel_mode new).

Definition with_avoid_ferries (v : bool) (self : Directions) : Directions :=
  mk_Directions (start self) (end_ self) (waypoints self) (data self)
    (data_bounds self) v (avoid_highways self) (avoid_tolls self)
    (optimize_waypoints self) (travel_mode self) (layer_status self).

Definition with_avoid_highways (v : bool) (self : Directions) : Directions :=
  mk_Directions (start self) (end_ self) (waypoints self) (data self)
    (data_bounds self) (avoid_ferries self) v (avoid_tolls self)
    (optimize_waypoints self) (travel_mode self) (layer_status self).

Definition with_avoid_tolls (v : bool) (self : Directions) : Directions :=
  mk_Directions (start self) (end_ self) (waypoints self) (data self)
    (data_bounds self) (avoid_ferries self) (avoid_highways self) v
    (optimize_waypoints self) (travel_mode self) (layer_status self).

Definition with_optimize_waypoints (v : bool) (self : Directions) : Directions :=
  mk_Directions (start self) (end_ self) (waypoints self) (data self)
    (data_bounds self) (avoid_ferries self) (avoid_highways self)
    (avoid_tolls self) v (travel_mode self) (layer_status self).

(** Assigning one of the four [Bool] flags: the value is stored, the
    class has neither a hook nor an observer on them. *)
Definition setattr_avoid_ferries (value : bool) : M Directions unit :=
  modify (with_avoid_ferries value).

Definition setattr_avoid_highways (value : bool) : M Directions unit :=
  modify (with_avoid_highways value).

Definition setattr_avoid_tolls (value : bool) : M Directions unit :=
  modify (with_avoid_tolls value).

Definition setattr_optimize_waypoints (value : bool) : M Directions unit :=
  modify (with_optimize_waypoints value).

(** Assigning a list to [data_bounds] from outside: the trait is a plain
    [List()], public and writable; any list is stored as it is and
    nothing in the class looks at it. *)
Definition setattr_data_bounds (value : list point) : M Directions unit :=
  modify (with_data_bounds value).

(** One assignment to a trait other than [data_bounds], with the object
    as the assignment leaves it, whether it returned or raised. *)
Inductive assignment_elsewhere : Directions -> Directions -> Prop :=
| assign_start value self :
    assignment_elsewhere self (state_of (setattr_start value self))
| assign_end value self :
    assignment_elsewhere self (state_of (setattr_end value self))
| assign_waypoints value self :
    assignment_elsewhere self (state_of (setattr_waypoints value self))
| assign_data value self :
    assignment_elsewhere self (state_of (setattr_data value self))
| assign_layer_status value self :
    assignment_elsewhere self (state_of (setattr_layer_status value self))
| assign_travel_mode value self :
    assignment_elsewhere self (state_of (setattr_travel_mode value self))
| assign_avoid_ferries value self :
    assignment_elsewhere self (state_of (setattr_avoid_ferries value self))
| assign_avoid_highways value self :
    assignment_elsewhere self (state_of (setattr_avoid_highways value self))
| assign_avoid_tolls value self :
    assignment_elsewhere self (state_of (setattr_avoid_tolls value self))
| assign_optimize_waypoints value self :
    assignment_elsewhere self (state_of (setattr_optimize_waypoints value self)).

(** One assignment to any trait of the object. *)
Inductive assignment : Directions -> Directions -> Prop :=
| assign_elsewhere self self' :
    assignment_elsewhere self self' -> assignment self self'
| assign_data_bounds value self :
    assignment self (state_of (setattr_data_bounds value self)).

(** The objects a program can hold: what the constructor returned, after
    any number of assignments to any of its traits. *)
Inductive reachable : Directions -> Prop :=
| reach_constructed st en w kwargs ev self :
    Directions___init__ st en w kwargs tt = (ev, tt, inr self) ->
    reachable self
| reach_assigned self self' :
    reachable self -> assignment self self' -> reachable self'.

(** The objects whose [data_bounds] only the object itself has written:
    what the constructor returned, after any number of assignments to
    traits other than [data_bounds]. *)
Inductive reachable_hands_off : Directions -> Prop :=
| hands_off_constructed st en w kwargs ev self :
    Directions___init__ st en w kwargs tt = (ev, tt, inr self) ->
    reachable_hands_off self
| hands_off_assigned self self' :
    reachable_hands_off self -> assignment_elsewhere self self' ->
    reachable_hands_off self'.

(** [data_bounds] equals ([==]) what [_calc_bounds] would store now. *)
Definition box_consistent (self : Directions) : bool :=
  points_eqb (data_bounds self)
    (route_box (start self) (waypoints self ++ [end_ self])).

(** Every point of one list equals ([==]) a point of the other. *)
Definition same_points (l l' : list point) : Prop :=
  (forall p, In p l -> exists q, In q l' /\ point_eqb p q = true) /\
  (forall q, In q l' -> exists p, In p l /\ point_eqb q p = true).

(** [box] is [[lo; hi]], every point of [pts] lies within it and each of
    its four sides goes through a point of [pts], coordinates compared
    with [==]. *)
Definition encloses (box pts : list point) : Prop :=
  exists lo hi,
    box = [lo; hi] /\
    (forall p, In p pts -> within lo hi p) /\
    (exists p, In p pts /\ latitude p == latitude lo) /\
    (exists p, In p pts /\ longitude p == longitude lo) /\
    (exists p, In p pts /\ latitude p == latitude hi) /\
    (exists p, In p pts /\ longitude p == longitude hi).

(** The keyword [travel_mode] is absent or names an allowed mode. *)
Definition travel_mode_keyword_ok (keyword : option string) : Prop :=
  match keyword with
  | Some m => In m ALLOWED_TRAVEL_MODES
  | None => True
  end.

(** The events a run emitted hold the given warning. *)
Definition warned (message : string) (events : list event) : Prop :=
  In (DeprecationWarning message) events.

(** * Properties *)

(** ** Comparisons, [min] and [max] *)

Lemma ltb_lt (x y : Q) : Py.ltb x y = true <-> x < y.
Proof.
  unfold Py.ltb. rewrite negb_true_iff.
  split; intro H.
  - apply Qnot_le_lt. intro Hle. apply Qle_bool_iff in Hle. congruence.
  - destruct (Qle_bool y x) eqn:E; [|reflexivity].
    apply Qle_bool_iff in E. exfalso. exact (Qlt_not_le _ _ H E).
Qed.

Lemma ltb_ge (x y : Q) : Py.ltb x y = false <-> y <= x.
Proof.
  unfold Py.ltb. rewrite negb_false_iff. apply Qle_bool_iff.
Qed.

Lemma min_step_le_best (best item : Q) : Py.min_step best item <= best.
Proof.
  unfold Py.min_step. destruct (Py.ltb item best) eqn:E.
  - apply Qlt_le_weak, ltb_lt, E.
  - apply Qle_refl.
Qed.

Lemma min_step_le_item (best item : Q) : Py.min_step best item <= item.
Proof.
  unfold Py.min_step. destruct (Py.ltb item best) eqn:E.
  - apply Qle_refl.
  - apply ltb_ge, E.
Qed.

Lemma max_step_ge_best (best item : Q) : best <= Py.max_step best item.
Proof.
  unfold Py.max_step, Py.gtb. destruct (Py.ltb best item) eqn:E.
  - apply Qlt_le_weak, ltb_lt, E.
  - apply Qle_refl.
Qed.

Lemma max_step_ge_item (best item : Q) : item <= Py.max_step best item.
Proof.
  unfold Py.max_step, Py.gtb. destruct (Py.ltb best item) eqn:E.
  - apply Qle_refl.
  - apply ltb_ge, E.
Qed.

Lemma fold_min_le_init (items : list Q) (init : Q) :
  fold_left Py.min_step items init <= init.
Proof.
  revert init. induction items as [|x items IH]; intro init; simpl.
  - apply Qle_refl.
  - eapply Qle_trans; [apply IH | apply min_step_le_best].
Qed.

Lemma fold_min_le_item (items : list Q) (init x : Q) :
  In x items -> fold_left Py.min_step items init <= x.
Proof.
  revert init. induction items as [|y items IH]; intros init Hin; simpl.
  - destruct Hin.
  - destruct Hin as [-> | Hin].
    + eapply Qle_trans; [apply fold_min_le_init | apply min_step_le_item].
    + apply IH, Hin.
Qed.

Lemma fold_min_attained (items : list Q) (init : Q) :
  fold_left Py.min_step items init = init \/
  In (fold_left Py.min_step items init) items.
Proof.
  revert init. induction items as [|y items IH]; intro init; simpl.
  - now left.
  - destruct (IH (Py.min_step init y)) as [E | Hin].
    + rewrite E. unfold Py.min_step. destruct (Py.ltb y init); auto.
    + auto.
Qed.

Lemma fold_max_ge_init (items : list Q) (init : Q) :
  init <= fold_left Py.max_step items init.
Proof.
  revert init. induction items as [|x items IH]; intro init; simpl.
  - apply Qle_refl.
  - eapply Qle_trans; [apply max_step_ge_best | apply IH].
Qed.

Lemma fold_max_ge_item (items : list Q) (init x : Q) :
  In x items -> x <= fold_left Py.max_step items init.
Proof.
  revert init. induction items as [|y items IH]; intros init Hin; simpl.
  - destruct Hin.
  - destruct Hin as [-> | Hin].
    + eapply Qle_trans; [apply max_step_ge_item | apply fold_max_ge_init].
    + apply IH, Hin.
Qed.

Lemma fold_max_attained (items : list Q) (init : Q) :
  fold_left Py.max_step items init = init \/
  In (fold_left Py.max_step items init) items.
Proof.
  revert init. induction items as [|y items IH]; intro init; simpl.
  - now left.
  - destruct (IH (Py.max_step init y)) as [E | Hin].
    + rewrite E. unfold Py.max_step. destruct (Py.gtb y init); auto.
    + auto.
Qed.

(** ** The bounding box *)

Lemma bounds_of_route (first : point) (rest : list point) :
  bounds_of (first :: rest) = inr (route_box first rest).
Proof. reflexivity. Qed.

Lemma fold_extrema (rest : list point) (acc : extrema) :
  let acc' := fold_left extrema_step rest acc in
  lo_lat acc' = fold_left Py.min_step (map latitude rest) (lo_lat acc) /\
  lo_lon acc' = fold_left Py.min_step (map longitude rest) (lo_lon acc) /\
  hi_lat acc' = fold_left Py.max_step (map latitude rest) (hi_lat acc) /\
  hi_lon acc' = fold_left Py.max_step (map longitude rest) (hi_lon acc).
Proof.
  revert acc. induction rest as [|row rest IH]; intro acc.
  - simpl. repeat split.
  - simpl. exact (IH (extrema_step acc row)).
Qed.

Lemma single_pass_route (first : point) (rest : list point) :
  single_pass_bounds (first :: rest) = Some (route_box first rest).
Proof.
  unfold single_pass_bounds, route_box.
  destruct (fold_extrema rest
              (mk_extrema (latitude first) (longitude first)
                          (latitude first) (longitude first)))
    as (E1 & E2 & E3 & E4).
  simpl in E1, E2, E3, E4. rewrite E1, E2, E3, E4. reflexivity.
Qed.

Lemma in_map_point (f : point -> Q) (x : Q) (pts : list point) :
  In x (map f pts) -> exists p, In p pts /\ f p = x.
Proof.
  intro H. apply in_map_iff in H. destruct H as (p & E & Hin). eauto.
Qed.

Lemma fold_min_point (f : point -> Q) (first : point) (rest : list point) :
  exists p, In p (first :: rest) /\
            f p = fold_left Py.min_step (map f rest) (f first).
Proof.
  destruct (fold_min_attained (map f rest) (f first)) as [E | Hin].
  - exists first. split; [now left | now rewrite E].
  - apply in_map_point in Hin. destruct Hin as (p & Hp & E).
    exists p. split; [now right | exact E].
Qed.

Lemma fold_max_point (f : point -> Q) (first : point) (rest : list point) :
  exists p, In p (first :: rest) /\
            f p = fold_left Py.max_step (map f rest) (f first).
Proof.
  destruct (fold_max_attained (map f rest) (f first)) as [E | Hin].
  - exists first. split; [now left | now rewrite E].
  - apply in_map_point in Hin. destruct Hin as (p & Hp & E).
    exists p. split; [now right | exact E].
Qed.

Lemma fold_min_below (f : point -> Q) (first p : point) (rest : list point) :
  In p (first :: rest) ->
  fold_left Py.min_step (map f rest) (f first) <= f p.
Proof.
  intros [<- | Hin].
  - apply fold_min_le_init.
  - apply fold_min_le_item, in_map, Hin.
Qed.

Lemma fold_max_above (f : point -> Q) (first p : point) (rest : list point) :
  In p (first :: rest) ->
  f p <= fold_left Py.max_step (map f rest) (f first).
Proof.
  intros [<- | Hin].
  - apply fold_max_ge_init.
  - apply fold_max_ge_item, in_map, Hin.
Qed.

Lemma route_box_is_bounding_box (first : point) (rest : list point) :
  is_bounding_box (first :: rest) (route_box first rest).
Proof.
  unfold is_bounding_box, route_box.
  eexists; eexists. split; [reflexivity|].
  split; [|repeat split].
  - intros p Hp. unfold within. cbn [latitude longitude fst snd].
    repeat split.
    + apply (fold_min_below latitude), Hp.
    + apply (fold_max_above latitude), Hp.
    + apply (fold_min_below longitude), Hp.
    + apply (fold_max_above longitude), Hp.
  - apply (fold_min_point latitude).
  - apply (fold_min_point longitude).
  - apply (fold_max_point latitude).
  - apply (fold_max_point longitude).
Qed.

Lemma bounding_box_shape (pts box : list point) :
  pts <> [] -> is_bounding_box pts box -> bounds_shape box.
Proof.
  intros Hne (lo & hi & -> & Hin & _).
  exists lo, hi. split; [reflexivity|].
  destruct pts as [|p pts]; [congruence|].
  destruct (Hin p (or_introl eq_refl)) as ((A & B) & (C & D)).
  split; eapply Qle_trans; eassumption.
Qed.

(** C7: on every non-empty list of points [first :: rest] the four
    [min]/[max] traversals of [_calc_bounds] return a box, and it is
    exactly the box that one traversal carrying the four extrema
    returns. *)
Theorem calc_bounds_refines_single_pass (first : point) (rest : list point) :
  exists box,
    bounds_of (first :: rest) = inr box /\
    single_pass_bounds (first :: rest) = Some box.
Proof.
  exists (route_box first rest). split.
  - apply bounds_of_route.
  - apply single_pass_route.
Qed.

(** ** Indexing and slicing *)

Lemma index_first {A} (a : A) (l : list A) : Py.index (a :: l) 0 = inr a.
Proof.
  unfold Py.index. cbn [Z.ltb Z.compare].
  replace (Z.of_nat (List.length (a :: l)) <=? 0)%Z with false.
  - reflexivity.
  - symmetry. apply Z.leb_gt. cbn [List.length]. lia.
Qed.

Lemma index_last {A} (l : list A) (z : A) : Py.index (l ++ [z]) (-1) = inr z.
Proof.
  unfold Py.index. cbn [Z.ltb Z.compare].
  rewrite length_app. cbn [List.length].
  replace (-1 + Z.of_nat (List.length l + 1))%Z with (Z.of_nat (List.length l)) by lia.
  replace (Z.of_nat (List.length l) <? 0)%Z with false
    by (symmetry; apply Z.ltb_ge; lia).
  replace (Z.of_nat (List.length l + 1) <=? Z.of_nat (List.length l))%Z with false
    by (symmetry; apply Z.leb_gt; lia).
  cbn [orb]. rewrite Nat2Z.id.
  rewrite nth_error_app2 by lia. rewrite Nat.sub_diag. reflexivity.
Qed.

Lemma slice_middle {A} (a z : A) (mid : list A) :
  Py.slice (a :: mid ++ [z]) 1 (-1) = mid.
Proof.
  unfold Py.slice, Py.slice_bound. cbn [Z.ltb Z.compare].
  cbn [List.length]. rewrite length_app. cbn [List.length].
  set (n := List.length mid).
  replace (Z.max 0 (Z.min (Z.of_nat (S (n + 1))) 1)) with 1%Z by lia.
  replace (Z.max 0 (Z.min (Z.of_nat (S (n + 1))) (-1 + Z.of_nat (S (n + 1)))))
    with (Z.of_nat (n + 1)) by lia.
  replace (Z.to_nat (Z.of_nat (n + 1) - 1)) with n by lia.
  change (Z.to_nat 1) with 1%nat. cbn [skipn].
  subst n. rewrite firstn_app, Nat.sub_diag, firstn_all. cbn [firstn].
  apply app_nil_r.
Qed.

Lemma two_or_more {A} (l : list A) :
  (2 <= List.length l)%nat -> exists a mid z, l = a :: mid ++ [z].
Proof.
  intro H. destruct l as [|a l]; [cbn in H; lia|].
  destruct (exists_last (l := l)) as (mid & z & ->).
  - intros ->. cbn in H. lia.
  - eauto.
Qed.

Lemma destructure_route (a z : point) (mid : list point) :
  _destructure_data (a :: mid ++ [z]) = inr (a, z, mid).
Proof.
  unfold _destructure_data.
  rewrite index_first.
  rewrite (index_last (a :: mid) z : Py.index (a :: mid ++ [z]) (-1) = inr z).
  rewrite slice_middle. reflexivity.
Qed.

(** C4: on a list of two or more points the legacy normalisation
    returns [(data[0], data[-1], data[1:-1])], and
    [[start] + waypoints + [end]] is the list itself. *)
Theorem destructure_data_roundtrip (data : list point) :
  (2 <= List.length data)%nat ->
  exists start end_ waypoints,
    _destructure_data data = inr (start, end_, waypoints) /\
    Py.index data 0 = inr start /\
    Py.index data (-1) = inr end_ /\
    Py.slice data 1 (-1) = waypoints /\
    [start] ++ waypoints ++ [end_] = data.
Proof.
  intro H. destruct (two_or_more data H) as (a & mid & z & ->).
  exists a, z, mid. split; [apply destructure_route|].
  split; [apply index_first|].
  split; [apply (index_last (a :: mid) z)|].
  split; [apply slice_middle|reflexivity].
Qed.

(** ** Runs of the trait machinery *)

Arguments valid_point : simpl never.
Arguments point_eqb : simpl never.
Arguments route_box : simpl never.
Arguments _destructure_data : simpl never.
Arguments String.eqb : simpl never.

Lemma point_eqb_refl (p : point) : point_eqb p p = true.
Proof. unfold point_eqb. now rewrite !Qeq_bool_refl. Qed.

Lemma points_eqb_refl (l : list point) : points_eqb l l = true.
Proof.
  induction l as [|a l IH]; [reflexivity|].
  cbn [points_eqb]. now rewrite point_eqb_refl, IH.
Qed.

Lemma calc_bounds_run (self : Directions) :
  _calc_bounds self =
  ([], with_data_bounds
         (route_box (start self) (waypoints self ++ [end_ self])) self,
   inr tt).
Proof. reflexivity. Qed.

Lemma held_set_start_run (p : point) (h : held) :
  held_set_start (Some p) h =
  if valid_point p then
    ([], (with_start p (fst h),
          if point_eqb (start (fst h)) p then snd h
          else if existsb (same_trait (change_start (start (fst h)))) (snd h)
               then snd h
               else snd h ++ [change_start (start (fst h))]), inr tt)
  else ([], h, inl invalid_point).
Proof.
  destruct h as [s c].
  unfold held_set_start, Point_validate, bind, lift, gets, modify, hold, ret.
  destruct (valid_point p); [|reflexivity]. cbn.
  destruct (point_eqb (start s) p); [reflexivity|]. cbn.
  destruct (existsb _ c); reflexivity.
Qed.

Lemma held_set_end_run (p : point) (h : held) :
  held_set_end (Some p) h =
  if valid_point p then
    ([], (with_end p (fst h),
          if point_eqb (end_ (fst h)) p then snd h
          else if existsb (same_trait (change_end (end_ (fst h)))) (snd h)
               then snd h
               else snd h ++ [change_end (end_ (fst h))]), inr tt)
  else ([], h, inl invalid_point).
Proof.
  destruct h as [s c].
  unfold held_set_end, Point_validate, bind, lift, gets, modify, hold, ret.
  destruct (valid_point p); [|reflexivity]. cbn.
  destruct (point_eqb (end_ s) p); [reflexivity|]. cbn.
  destruct (existsb _ c); reflexivity.
Qed.

Lemma held_set_waypoints_run (l : list point) (h : held) :
  held_set_waypoints l h =
  if forallb valid_point l then
    ([], (with_waypoints l (fst h),
          if points_eqb (waypoints (fst h)) l then snd h
          else if existsb (same_trait (change_waypoints (waypoints (fst h)))) (snd h)
               then snd h
               else snd h ++ [change_waypoints (waypoints (fst h))]), inr tt)
  else ([], h, inl invalid_point).
Proof.
  destruct h as [s c].
  unfold held_set_waypoints, LocationArray_validate_list,
    bind, lift, gets, modify, hold, ret.
  destruct (forallb valid_point l); [|reflexivity]. cbn.
  destruct (points_eqb (waypoints s) l); [reflexivity|]. cbn.
  destruct (existsb _ c); reflexivity.
Qed.

Arguments held_set_start : simpl never.
Arguments held_set_end : simpl never.
Arguments held_set_waypoints : simpl never.

(** Rewriting with the boolean facts at hand. *)
Ltac use_flags :=
  repeat match goal with
    | H : ?b = true |- context [?b] => rewrite H
    | H : ?b = false |- context [?b] => rewrite H
    | H : ?r = inl _ |- context [?r] => rewrite H
    | H : ?r = inr _ |- context [?r] => rewrite H
    end.

(** Running a block: data is computed, the operations of [M] are
    unfolded, held assignments are replaced by their results. *)
Ltac run :=
  repeat
    (cbn [app fst snd start end_ waypoints data data_bounds
          avoid_ferries avoid_highways avoid_tolls optimize_waypoints
          travel_mode layer_status
          with_start with_end with_waypoints with_data with_data_bounds
          with_layer_status all_data existsb same_trait orb negb
          andb for_each is_TraitError is_None rollback fold_left];
     cbv beta iota delta
       [bind gets ret raise lift emit modify on_self cross_validate
        _valid_waypoints _warn_obsolete_waypoints _warn_obsolete_data
        notify_change _calc_bounds events_of state_of outcome_of];
     rewrite ?held_set_start_run, ?held_set_end_run, ?held_set_waypoints_run,
       ?point_eqb_refl, ?points_eqb_refl, ?bounds_of_route;
     use_flags).

Lemma on_data_change_ok (d : list point) (st en : point) (wp : list point)
    (self : Directions) :
  _destructure_data d = inr (st, en, wp) ->
  valid_point st = true -> valid_point en = true ->
  forallb valid_point wp = true ->
  let self3 := with_waypoints wp (with_end en (with_start st self)) in
  _on_data_change (Some d) self =
  (DeprecationWarning obsolete_data_message ::
     (if points_eqb (waypoints self) wp then [] else [Print "validating"]),
   (if route_differs self self3
    then with_data_bounds (route_box st (wp ++ [en])) self3 else self3),
   inr tt).
Proof.
  intros Hd Hst Hen Hwp self3. subst self3.
  unfold _on_data_change, hold_trait_notifications, route_differs.
  run.
  destruct (point_eqb (start self) st) eqn:E1,
           (point_eqb (end_ self) en) eqn:E2,
           (points_eqb (waypoints self) wp) eqn:E3.
  all: run; reflexivity.
Qed.


Lemma valid_state_parts (self : Directions) :
  valid_state self = true ->
  valid_point (start self) = true /\ valid_point (end_ self) = true /\
  forallb valid_point (waypoints self) = true.
Proof.
  unfold valid_state. intro H.
  apply andb_true_iff in H. destruct H as [H H3].
  apply andb_true_iff in H. destruct H as [H1 H2]. auto.
Qed.

Lemma valid_widget_parts (self : Directions) :
  valid_widget self = true ->
  valid_point (start self) = true /\ valid_point (end_ self) = true /\
  forallb valid_point (waypoints self) = true /\
  forallb valid_point (data_bounds self) = true.
Proof.
  unfold valid_widget. intro H.
  apply andb_true_iff in H. destruct H as [H H4].
  apply valid_state_parts in H. tauto.
Qed.

Lemma valid_point_coordinates (p : point) :
  valid_point p = true ->
  valid_latitude (latitude p) = true /\ valid_longitude (longitude p) = true.
Proof. unfold valid_point. intro H. apply andb_true_iff in H. exact H. Qed.

(** The corners of the box of valid points are valid points. *)
Lemma route_box_valid (first : point) (rest : list point) :
  valid_point first = true -> forallb valid_point rest = true ->
  forallb valid_point (route_box first rest) = true.
Proof.
  intros Vf Vr.
  assert (V : forall p, In p (first :: rest) -> valid_point p = true).
  { intros p [<- | Hp]; [exact Vf|]. rewrite forallb_forall in Vr. auto. }
  unfold route_box. cbn [forallb]. unfold valid_point at 1 2.
  cbn [latitude longitude fst snd].
  destruct (fold_min_point latitude first rest) as (p1 & H1 & <-).
  destruct (fold_min_point longitude first rest) as (p2 & H2 & <-).
  destruct (fold_max_point latitude first rest) as (p3 & H3 & <-).
  destruct (fold_max_point longitude first rest) as (p4 & H4 & <-).
  apply V, valid_point_coordinates in H1, H2, H3, H4.
  destruct H1 as [-> _], H2 as [_ ->], H3 as [-> _], H4 as [_ ->].
  reflexivity.
Qed.

Ltac box_valid :=
  first
    [ reflexivity
    | rewrite route_box_valid;
      [ reflexivity
      | use_flags; reflexivity
      | rewrite ?forallb_app; cbn [forallb]; use_flags; reflexivity ] ].

Ltac frame_goal :=
  match goal with
  | |- same_options _ _ /\ _ = _ /\ (_ -> _) /\ (_ -> _) =>
      split; [unfold same_options; repeat split; reflexivity|];
      split; [reflexivity|];
      split;
      [ let H := fresh in
        intro H; apply valid_state_parts in H;
        destruct H as (? & ? & ?);
        unfold valid_state; run; reflexivity
      | let H := fresh in
        intro H; apply valid_widget_parts in H;
        destruct H as (? & ? & ? & ?);
        unfold valid_widget, valid_state; run; box_valid ]
  end.

(** Whatever the list and whatever the outcome, the observer of [data]
    leaves the options and [data] alone and keeps the stored points
    valid. *)
Lemma on_data_change_any (d : list point) (self : Directions) :
  let self' := state_of (_on_data_change (Some d) self) in
  same_options self self' /\
  data self' = data self /\
  (valid_state self = true -> valid_state self' = true) /\
  (valid_widget self = true -> valid_widget self' = true).
Proof.
  unfold _on_data_change, hold_trait_notifications.
  destruct (_destructure_data d) as [e0 | [[st en] wp]] eqn:Hd.
  - run. destruct (is_TraitError e0); run; frame_goal.
  - destruct (valid_point st) eqn:Vst; [|run; destruct (is_TraitError invalid_point); run; frame_goal].
    destruct (point_eqb (start self) st) eqn:E1;
    (destruct (valid_point en) eqn:Ven;
     [|run; destruct (is_TraitError invalid_point); run; frame_goal]);
    (destruct (point_eqb (end_ self) en) eqn:E2;
     (destruct (forallb valid_point wp) eqn:Vwp;
      [|run; destruct (is_TraitError invalid_point); run; frame_goal]);
     (destruct (points_eqb (waypoints self) wp) eqn:E3; run; frame_goal)).
Qed.

(** *** Assignments in closed form *)

Lemma setattr_start_run (value : option point) (self : Directions) :
  setattr_start value self =
  match value with
  | None => ([], self, inl Py.TraitError)
  | Some p =>
      if valid_point p then
        ([], (if point_eqb (start self) p then with_start p self
              else with_data_bounds
                     (route_box p (waypoints self ++ [end_ self]))
                     (with_start p self)), inr tt)
      else ([], self, inl invalid_point)
  end.
Proof.
  unfold setattr_start, Point_validate. destruct value as [p|]; [|reflexivity].
  destruct (valid_point p); [|reflexivity].
  run. destruct (point_eqb (start self) p); reflexivity.
Qed.

Lemma setattr_end_run (value : option point) (self : Directions) :
  setattr_end value self =
  match value with
  | None => ([], self, inl Py.TraitError)
  | Some p =>
      if valid_point p then
        ([], (if point_eqb (end_ self) p then with_end p self
              else with_data_bounds
                     (route_box (start self) (waypoints self ++ [p]))
                     (with_end p self)), inr tt)
      else ([], self, inl invalid_point)
  end.
Proof.
  unfold setattr_end, Point_validate. destruct value as [p|]; [|reflexivity].
  destruct (valid_point p); [|reflexivity].
  run. destruct (point_eqb (end_ self) p); reflexivity.
Qed.

(** What an accepted assignment of the list [l] to [waypoints] leaves. *)
Lemma setattr_waypoints_run (value : option (list point)) (self : Directions) :
  let stored l :=
    if points_eqb (waypoints self) l then with_waypoints l self
    else with_data_bounds (route_box (start self) (l ++ [end_ self]))
           (with_waypoints l self) in
  setattr_waypoints value self =
  match value with
  | None => ([], self, inl Py.TraitError)
  | Some l =>
      if forallb valid_point l then ([Print "validating"], stored l, inr tt)
      else ([], self, inl invalid_point)
  end.
Proof.
  unfold setattr_waypoints, LocationArray_validate, LocationArray_validate_list.
  destruct value as [l|].
  - destruct (forallb valid_point l); [|reflexivity].
    run. destruct (points_eqb (waypoints self) l); reflexivity.
  - reflexivity.
Qed.

Lemma setattr_data_run (value : option (list point)) (self : Directions) :
  setattr_data value self =
  match value with
  | None => ([], with_data None self, inr tt)
  | Some d =>
      if (2 <=? List.length d)%nat then
        if data_eqb (data self) (Some d) then ([], with_data (Some d) self, inr tt)
        else _on_data_change (Some d) (with_data (Some d) self)
      else ([], self, inl Py.TraitError)
  end.
Proof.
  unfold setattr_data, data_validate. destruct value as [d|].
  - destruct (2 <=? List.length d)%nat; [|reflexivity].
    unfold bind, lift, gets, modify.
    destruct (data_eqb (data self) (Some d)); [reflexivity|].
    destruct (_on_data_change (Some d) (with_data (Some d) self)) as [[ev s] r].
    reflexivity.
  - unfold bind, lift, gets, modify.
    destruct (data_eqb (data self) None); reflexivity.
Qed.

Lemma setattr_layer_status_run (value : string) (self : Directions) :
  setattr_layer_status value self =
  ([], with_layer_status value self,
   if String.eqb (layer_status self) value then inr tt
   else if String.eqb value "OK" then inr tt
        else inl (Py.DirectionsServiceException
                    ("No directions returned: " ++ value))).
Proof.
  unfold setattr_layer_status, _handle_layer_status, bind, gets, modify, ret, raise.
  destruct (String.eqb (layer_status self) value); [reflexivity|].
  destruct (String.eqb value "OK"); reflexivity.
Qed.


(** A run of the observer of [data] that raises nothing was given a list
    that splits into valid points. *)
Lemma on_data_change_success (d : list point) (self : Directions) :
  outcome_of (_on_data_change (Some d) self) = inr tt ->
  exists st en wp,
    _destructure_data d = inr (st, en, wp) /\
    valid_point st = true /\ valid_point en = true /\
    forallb valid_point wp = true.
Proof.
  unfold _on_data_change, hold_trait_notifications.
  destruct (_destructure_data d) as [e0 | [[st en] wp]] eqn:Hd.
  - run. destruct (is_TraitError e0); run; discriminate.
  - destruct (valid_point st) eqn:Vst;
      [|run; destruct (is_TraitError invalid_point); run; discriminate].
    destruct (valid_point en) eqn:Ven;
      [|run; destruct (point_eqb (start self) st);
        destruct (is_TraitError invalid_point); run; discriminate].
    destruct (forallb valid_point wp) eqn:Vwp;
      [|run; destruct (point_eqb (start self) st), (point_eqb (end_ self) en);
        destruct (is_TraitError invalid_point); run; discriminate].
    intros _. exists st, en, wp. auto.
Qed.

(** A successful assignment either leaves the route equal ([==]) to what
    it was and [data_bounds] untouched, or leaves in [data_bounds] the
    box of the new route. *)
Lemma route_update_cases (self self' : Directions) :
  route_update self self' ->
  (route_differs self self' = false /\ data_bounds self' = data_bounds self) \/
  data_bounds self' = route_box (start self') (waypoints self' ++ [end_ self']).
Proof.
  intro U. destruct U as [v s ev s' H | v s ev s' H | v s ev s' H | v s ev s' H].
  - rewrite setattr_start_run in H. destruct v as [p|]; [|discriminate].
    destruct (valid_point p); [|discriminate].
    destruct (point_eqb (start s) p) eqn:E; inversion H; subst; clear H.
    + left. unfold route_differs. run. auto.
    + right. reflexivity.
  - rewrite setattr_end_run in H. destruct v as [p|]; [|discriminate].
    destruct (valid_point p); [|discriminate].
    destruct (point_eqb (end_ s) p) eqn:E; inversion H; subst; clear H.
    + left. unfold route_differs. run. auto.
    + right. reflexivity.
  - rewrite setattr_waypoints_run in H. cbv zeta in H.
    destruct v as [l|].
    + destruct (forallb valid_point l); [|discriminate].
      destruct (points_eqb (waypoints s) l) eqn:E; inversion H; subst; clear H.
      * left. unfold route_differs. run. auto.
      * right. reflexivity.
    + discriminate.
  - rewrite setattr_data_run in H. destruct v as [d|].
    + destruct (2 <=? List.length d)%nat; [|discriminate].
      destruct (data_eqb (data s) (Some d)).
      * inversion H; subst; clear H. left. unfold route_differs. run. auto.
      * destruct (on_data_change_success d (with_data (Some d) s))
          as (st & en & wp & Hd & Vst & Ven & Vwp).
        { rewrite H. reflexivity. }
        rewrite (on_data_change_ok d st en wp _ Hd Vst Ven Vwp) in H.
        cbv zeta in H.
        match type of H with
        | (_, (if ?b then _ else _), _) = _ => destruct b eqn:E
        end; inversion H; subst; clear H.
        -- right. reflexivity.
        -- left. split; [exact E | reflexivity].
    + inversion H; subst; clear H. left. unfold route_differs. run. auto.
Qed.

(** C1: after a successful assignment that changes [start], [end] or
    [waypoints] (directly, or through [data]), [data_bounds] is the
    rectangle [[(min lat, min lon); (max lat, max lon)]] of the route
    [[start] + waypoints + [end]]: every route point lies within it and
    each of the four extrema is the coordinate of a route point. *)
Theorem data_bounds_is_minimal_rectangle (self self' : Directions) :
  route_update self self' ->
  route_differs self self' = true ->
  is_bounding_box (all_data self') (data_bounds self').
Proof.
  intros U D. destruct (route_update_cases self self' U) as [[E _] | E].
  - congruence.
  - rewrite E. apply route_box_is_bounding_box.
Qed.


(** *** Construction in closed form *)

Lemma HasTraits_init_run (kwargs : TraitKwargs) :
  HasTraits___init__ kwargs tt =
  match (match kw_travel_mode (tk_rest kwargs) with
         | Some m => travel_mode_validate m
         | None => inr DEFAULT_TRAVEL_MODE
         end) with
  | inl e => ([], tt, inl e)
  | inr mode =>
      match Point_validate (tk_start kwargs) with
      | inl e => ([], tt, inl e)
      | inr st =>
          match Point_validate (tk_end kwargs) with
          | inl e => ([], tt, inl e)
          | inr en =>
              if forallb valid_point (tk_waypoints kwargs) then
                ([Print "validating"], tt,
                 inr (mk_Directions st en (tk_waypoints kwargs) None
                        (route_box st (tk_waypoints kwargs ++ [en]))
                        (keyword_or false (kw_avoid_ferries (tk_rest kwargs)))
                        (keyword_or false (kw_avoid_highways (tk_rest kwargs)))
                        (keyword_or false (kw_avoid_tolls (tk_rest kwargs)))
                        (keyword_or false (kw_optimize_waypoints (tk_rest kwargs)))
                        mode EmptyString))
              else ([], tt, inl invalid_point)
          end
      end
  end.
Proof.
  unfold HasTraits___init__, created, LocationArray_validate_list.
  destruct (match kw_travel_mode (tk_rest kwargs) with
            | Some m => travel_mode_validate m
            | None => inr DEFAULT_TRAVEL_MODE
            end) as [e|mode]; [reflexivity|].
  destruct (Point_validate (tk_start kwargs)) as [e|st]; [reflexivity|].
  destruct (Point_validate (tk_end kwargs)) as [e|en]; [reflexivity|].
  destruct (forallb valid_point (tk_waypoints kwargs)) eqn:V; [|reflexivity].
  run. reflexivity.
Qed.

Lemma Point_validate_valid (value : option point) (p : point) :
  Point_validate value = inr p -> value = Some p /\ valid_point p = true.
Proof.
  unfold Point_validate. destruct value as [q|]; [|discriminate].
  destruct (valid_point q) eqn:V; [|discriminate].
  intro H. inversion H; subst. auto.
Qed.

Lemma HasTraits_init_success (kwargs : TraitKwargs) (ev : list event)
    (self : Directions) :
  HasTraits___init__ kwargs tt = (ev, tt, inr self) ->
  valid_widget self = true /\ data self = None /\
  data_bounds self = route_box (start self) (waypoints self ++ [end_ self]) /\
  tk_start kwargs = Some (start self) /\ tk_end kwargs = Some (end_ self) /\
  tk_waypoints kwargs = waypoints self.
Proof.
  rewrite HasTraits_init_run.
  destruct (match kw_travel_mode (tk_rest kwargs) with
            | Some m => travel_mode_validate m
            | None => inr DEFAULT_TRAVEL_MODE
            end) as [e|mode]; [discriminate|].
  destruct (Point_validate (tk_start kwargs)) as [e|st] eqn:Vs; [discriminate|].
  destruct (Point_validate (tk_end kwargs)) as [e|en] eqn:Ve; [discriminate|].
  destruct (forallb valid_point (tk_waypoints kwargs)) eqn:Vw; [|discriminate].
  apply Point_validate_valid in Vs, Ve. destruct Vs as [Es Vs], Ve as [Ee Ve].
  intro H. inversion H; subst; clear H.
  split; [|repeat split; assumption].
  unfold valid_widget, valid_state. run. box_valid.
Qed.

Lemma init_data_run (w : option (list point)) (kwargs : Kwargs) (d : list point) :
  kw_data kwargs = Some d ->
  Directions___init__ None None w kwargs tt =
  match _destructure_data d with
  | inl e => ([DeprecationWarning obsolete_data_message], tt, inl e)
  | inr (st, en, wps) =>
      let r := HasTraits___init__
                 (mk_TraitKwargs (with_kw_data None kwargs) (Some st) (Some en) wps) tt in
      (DeprecationWarning obsolete_data_message :: events_of r, tt, outcome_of r)
  end.
Proof.
  intro H. unfold Directions___init__, kwargs_get_waypoints. rewrite H.
  run. destruct (_destructure_data d) as [e|[[st en] wps]]; [reflexivity|].
  destruct (HasTraits___init__ _ tt) as [[ev []] r]. reflexivity.
Qed.

Lemma init_plain_run (st en : option point) (w : option (list point))
    (kwargs : Kwargs) :
  kw_data kwargs = None ->
  let r := HasTraits___init__
             (mk_TraitKwargs kwargs st en
                (match w with Some l => l | None => [] end)) tt in
  Directions___init__ st en w kwargs tt =
  ((match w with
    | Some _ => []
    | None => [DeprecationWarning obsolete_waypoints_message]
    end) ++ events_of r, tt, outcome_of r).
Proof.
  intro H. unfold Directions___init__. rewrite H.
  destruct w as [l|]; run;
    destruct (HasTraits___init__ _ tt) as [[ev []] r]; reflexivity.
Qed.

Lemma init_success (st en : option point) (w : option (list point))
    (kwargs : Kwargs) (ev : list event) (self : Directions) :
  Directions___init__ st en w kwargs tt = (ev, tt, inr self) ->
  valid_widget self = true /\ data self = None /\
  data_bounds self = route_box (start self) (waypoints self ++ [end_ self]).
Proof.
  destruct (kw_data kwargs) as [d|] eqn:K.
  - unfold Directions___init__, kwargs_get_waypoints. rewrite K. run.
    destruct st, en; run; try discriminate.
    destruct (_destructure_data d) as [e|[[s0 e0] wps]]; [discriminate|].
    destruct (HasTraits___init__ _ tt) as [[ev1 []] [e|self1]] eqn:HT;
      [discriminate|].
    intro H. inversion H; subst; clear H.
    apply HasTraits_init_success in HT. tauto.
  - rewrite (init_plain_run st en w kwargs K). cbv zeta.
    destruct (HasTraits___init__ _ tt) as [[ev1 []] [e|self1]] eqn:HT;
      [discriminate|].
    unfold outcome_of. cbn [snd]. intro H. inversion H; subst; clear H.
    apply HasTraits_init_success in HT. tauto.
Qed.

(** C9: [data_bounds] is a list of two corners, the first componentwise
    at most the second: in every constructed object; after every
    successful assignment to [start], [end], [waypoints] or [data] that
    changes the route; and after every other successful assignment if it
    was so before. *)
Theorem data_bounds_shape_invariant :
  (forall st en w kwargs ev self,
      Directions___init__ st en w kwargs tt = (ev, tt, inr self) ->
      bounds_shape (data_bounds self)) /\
  (forall self self',
      route_update self self' ->
      route_differs self self' = true \/ bounds_shape (data_bounds self) ->
      bounds_shape (data_bounds self')).
Proof.
  split.
  - intros st en w kwargs ev self H.
    apply init_success in H. destruct H as (_ & _ & E). rewrite E.
    eapply bounding_box_shape; [|apply route_box_is_bounding_box]. discriminate.
  - intros self self' U H.
    destruct (route_update_cases self self' U) as [[D E] | E].
    + destruct H as [H | H]; [congruence | now rewrite E].
    + rewrite E.
      eapply bounding_box_shape; [|apply route_box_is_bounding_box]. discriminate.
Qed.


(** ** Validation *)

Lemma valid_point_iff (p : point) : valid_point p = true <-> in_range p.
Proof.
  unfold valid_point, valid_latitude, valid_longitude, in_range.
  rewrite !andb_true_iff, !Qle_bool_iff. reflexivity.
Qed.

Lemma out_of_range_invalid (p : point) : out_of_range p -> valid_point p = false.
Proof.
  intro H. destruct (valid_point p) eqn:V; [|reflexivity].
  exfalso. apply H, valid_point_iff, V.
Qed.

Lemma valid_widget_iff (self : Directions) :
  valid_widget self = true <-> (forall p, In p (stored_points self) -> in_range p).
Proof.
  unfold valid_widget, valid_state, stored_points, all_data.
  rewrite !andb_true_iff, !forallb_forall.
  split.
  - intros [[[Hs He] Hw] Hb] p Hp. apply valid_point_iff.
    apply in_app_or in Hp. destruct Hp as [Hp | Hp]; [|auto].
    cbn [app] in Hp. destruct Hp as [<- | Hp]; [exact Hs|].
    apply in_app_or in Hp. destruct Hp as [Hp | [<- | []]]; auto.
  - intro H. repeat split.
    + apply valid_point_iff, H, in_or_app. left. cbn [app]. now left.
    + apply valid_point_iff, H, in_or_app. left. cbn [app]. right.
      apply in_or_app. right. now left.
    + intros p Hp. apply valid_point_iff, H, in_or_app. left. cbn [app]. right.
      apply in_or_app. now left.
    + intros p Hp. apply valid_point_iff, H, in_or_app. now right.
Qed.

Lemma setattr_start_valid (value : option point) (self : Directions) :
  valid_widget self = true ->
  valid_widget (state_of (setattr_start value self)) = true.
Proof.
  intro V. pose proof V as V'. apply valid_widget_parts in V'.
  destruct V' as (Vs & Ve & Vw & Vb).
  rewrite setattr_start_run. destruct value as [p|]; [|exact V].
  destruct (valid_point p) eqn:Vp; [|exact V].
  destruct (point_eqb (start self) p);
    unfold valid_widget, valid_state; run; box_valid.
Qed.

Lemma setattr_end_valid (value : option point) (self : Directions) :
  valid_widget self = true ->
  valid_widget (state_of (setattr_end value self)) = true.
Proof.
  intro V. pose proof V as V'. apply valid_widget_parts in V'.
  destruct V' as (Vs & Ve & Vw & Vb).
  rewrite setattr_end_run. destruct value as [p|]; [|exact V].
  destruct (valid_point p) eqn:Vp; [|exact V].
  destruct (point_eqb (end_ self) p);
    unfold valid_widget, valid_state; run; box_valid.
Qed.

Lemma setattr_waypoints_valid (value : option (list point)) (self : Directions) :
  valid_widget self = true ->
  valid_widget (state_of (setattr_waypoints value self)) = true.
Proof.
  intro V. pose proof V as V'. apply valid_widget_parts in V'.
  destruct V' as (Vs & Ve & Vw & Vb).
  rewrite setattr_waypoints_run. cbv zeta. destruct value as [l|].
  - destruct (forallb valid_point l) eqn:Vl; [|exact V].
    destruct (points_eqb (waypoints self) l);
      unfold valid_widget, valid_state; run; box_valid.
  - exact V.
Qed.

Lemma setattr_data_valid (value : option (list point)) (self : Directions) :
  valid_widget self = true ->
  valid_widget (state_of (setattr_data value self)) = true.
Proof.
  intro V. rewrite setattr_data_run. destruct value as [d|]; [|exact V].
  destruct (2 <=? List.length d)%nat; [|exact V].
  destruct (data_eqb (data self) (Some d)); [exact V|].
  apply (on_data_change_any d (with_data (Some d) self)). exact V.
Qed.

(** C5: an assignment to [start], [end] or [waypoints] of a value with a
    latitude outside [-90, 90] or a longitude outside [-180, 180] raises
    and leaves the object as it was; the points a constructed object
    stores (its route and the corners of its box) are all in range, and
    they still are after any assignment to [start], [end], [waypoints]
    or [data], whatever its outcome. *)
Theorem geographic_inputs_are_validated :
  (forall self p,
      out_of_range p ->
      setattr_start (Some p) self = ([], self, inl invalid_point) /\
      setattr_end (Some p) self = ([], self, inl invalid_point)) /\
  (forall self l p,
      In p l -> out_of_range p ->
      setattr_waypoints (Some l) self = ([], self, inl invalid_point)) /\
  (forall st en w kwargs ev self,
      Directions___init__ st en w kwargs tt = (ev, tt, inr self) ->
      forall p, In p (stored_points self) -> in_range p) /\
  (forall self,
      (forall p, In p (stored_points self) -> in_range p) ->
      forall self',
        (exists v, self' = state_of (setattr_start v self)) \/
        (exists v, self' = state_of (setattr_end v self)) \/
        (exists v, self' = state_of (setattr_waypoints v self)) \/
        (exists v, self' = state_of (setattr_data v self)) ->
        forall p, In p (stored_points self') -> in_range p).
Proof.
  split; [|split; [|split]].
  - intros self p Hout. split.
    + rewrite setattr_start_run, (out_of_range_invalid p Hout). reflexivity.
    + rewrite setattr_end_run, (out_of_range_invalid p Hout). reflexivity.
  - intros self l p Hin Hout. rewrite setattr_waypoints_run. cbv zeta.
    destruct (forallb valid_point l) eqn:V; [|reflexivity].
    exfalso. rewrite forallb_forall in V.
    apply Hout, valid_point_iff, V, Hin.
  - intros st en w kwargs ev self H. apply valid_widget_iff.
    apply init_success in H. tauto.
  - intros self V self' H. apply valid_widget_iff. apply valid_widget_iff in V.
    destruct H as [[v ->] | [[v ->] | [[v ->] | [v ->]]]].
    + now apply setattr_start_valid.
    + now apply setattr_end_valid.
    + now apply setattr_waypoints_valid.
    + now apply setattr_data_valid.
Qed.

(** ** The deprecated [data] trait *)

(** C6: assigning a list to [data], whatever the list and whatever the
    outcome, leaves [travel_mode], [avoid_ferries], [avoid_highways],
    [avoid_tolls], [optimize_waypoints] (and [layer_status]) as they
    were. *)
Theorem data_assignment_keeps_options (self : Directions) (d : list point) :
  same_options self (state_of (setattr_data (Some d) self)).
Proof.
  rewrite setattr_data_run.
  destruct (2 <=? List.length d)%nat;
    [|unfold same_options; repeat split; reflexivity].
  destruct (data_eqb (data self) (Some d));
    [unfold same_options; repeat split; reflexivity|].
  apply (on_data_change_any d (with_data (Some d) self)).
Qed.

(** ** The layer status *)

(** C3: when [layer_status] changes to [new], the new status is stored;
    a [DirectionsServiceException] with the message
    "No directions returned: " followed by [new] is raised if [new] is
    not "OK", and nothing is raised if it is. *)
Theorem layer_status_raises_iff (self : Directions) (new : string) :
  layer_status self <> new ->
  let r := setattr_layer_status new self in
  layer_status (state_of r) = new /\
  (new <> "OK"%string ->
   outcome_of r = inl (Py.DirectionsServiceException
                         ("No directions returned: " ++ new))) /\
  (new = "OK"%string -> outcome_of r = inr tt) /\
  ((exists e, outcome_of r = inl e) <-> new <> "OK"%string).
Proof.
  intros Hchg r. subst r. rewrite setattr_layer_status_run.
  unfold state_of, outcome_of. cbn [fst snd layer_status with_layer_status].
  apply String.eqb_neq in Hchg. rewrite Hchg.
  destruct (String.eqb new "OK") eqn:E.
  - apply String.eqb_eq in E. subst new. repeat split.
    + intro H. congruence.
    + intros [e H]. discriminate.
    + intro H. congruence.
  - apply String.eqb_neq in E. repeat split.
    + intro H. congruence.
    + intros _. exact E.
    + intros _. eexists. reflexivity.
Qed.


Lemma valid_route_parts (a z : point) (mid : list point) :
  (forall p, In p (a :: mid ++ [z]) -> in_range p) ->
  valid_point a = true /\ valid_point z = true /\
  forallb valid_point mid = true.
Proof.
  intro H. repeat split.
  - apply valid_point_iff, H. now left.
  - apply valid_point_iff, H. right. apply in_or_app. right. now left.
  - apply forallb_forall. intros p Hp. apply valid_point_iff, H. right.
    apply in_or_app. now left.
Qed.

Lemma travel_mode_accepted (kwargs : Kwargs) :
  (forall m, kw_travel_mode kwargs = Some m -> In m ALLOWED_TRAVEL_MODES) ->
  exists mode,
    match kw_travel_mode kwargs with
    | Some m => travel_mode_validate m
    | None => inr DEFAULT_TRAVEL_MODE
    end = inr mode.
Proof.
  intro H. destruct (kw_travel_mode kwargs) as [m|]; [|eauto].
  exists m. unfold travel_mode_validate.
  replace (existsb (String.eqb m) ALLOWED_TRAVEL_MODES) with true; [reflexivity|].
  symmetry. apply existsb_exists. exists m. split; [now apply H|].
  apply String.eqb_refl.
Qed.

(** Construction from a legacy list of two or more valid points. *)
Lemma init_from_data (w : option (list point)) (kwargs : Kwargs)
    (a z : point) (mid : list point) :
  kw_data kwargs = Some (a :: mid ++ [z]) ->
  (forall m, kw_travel_mode kwargs = Some m -> In m ALLOWED_TRAVEL_MODES) ->
  (forall p, In p (a :: mid ++ [z]) -> in_range p) ->
  exists ev self,
    Directions___init__ None None w kwargs tt = (ev, tt, inr self) /\
    start self = a /\ end_ self = z /\ waypoints self = mid.
Proof.
  intros K T V. apply valid_route_parts in V. destruct V as (Va & Vz & Vm).
  rewrite (init_data_run w kwargs _ K), destructure_route. cbv zeta.
  rewrite HasTraits_init_run.
  cbn [tk_rest tk_start tk_end tk_waypoints with_kw_data kw_travel_mode
       kw_avoid_ferries kw_avoid_highways kw_avoid_tolls kw_optimize_waypoints].
  destruct (travel_mode_accepted kwargs T) as [mode ->].
  unfold Point_validate. rewrite Va, Vz, Vm.
  eexists. eexists. split; [reflexivity|]. repeat split.
Qed.

(** C2, amended: for a list [data] of two or more valid points, the
    constructor called with [data] alone yields [start = data[0]],
    [end = data[-1]], [waypoints = data[1:-1]]; assigning [data] to the
    trait of an object just constructed does the same, and so does any
    later assignment of a list that differs ([!=]) from the value the
    trait holds at that moment. *)
Theorem data_is_normalised (d : list point) :
  (2 <= List.length d)%nat ->
  (forall p, In p d -> in_range p) ->
  (exists ev self,
      Directions___init__ None None None
        (mk_Kwargs (Some d) None None None None None) tt = (ev, tt, inr self) /\
      Py.index d 0 = inr (start self) /\
      Py.index d (-1) = inr (end_ self) /\
      Py.slice d 1 (-1) = waypoints self /\
      data self = None) /\
  (forall st en w kwargs ev self,
      Directions___init__ st en w kwargs tt = (ev, tt, inr self) ->
      exists ev' self',
        setattr_data (Some d) self = (ev', self', inr tt) /\
        Py.index d 0 = inr (start self') /\
        Py.index d (-1) = inr (end_ self') /\
        Py.slice d 1 (-1) = waypoints self') /\
  (forall self,
      data_eqb (data self) (Some d) = false ->
      exists ev' self',
        setattr_data (Some d) self = (ev', self', inr tt) /\
        Py.index d 0 = inr (start self') /\
        Py.index d (-1) = inr (end_ self') /\
        Py.slice d 1 (-1) = waypoints self').
Proof.
  intros L V. pose proof L as L'.
  destruct (two_or_more d L) as (a & mid & z & ->).
  rewrite index_first, (index_last (a :: mid) z : Py.index (a :: mid ++ [z]) (-1) = inr z),
    slice_middle.
  assert (G : forall self,
             data_eqb (data self) (Some (a :: mid ++ [z])) = false ->
             exists ev' self',
               setattr_data (Some (a :: mid ++ [z])) self = (ev', self', inr tt) /\
               @inr Py.exn point a = inr (start self') /\
               @inr Py.exn point z = inr (end_ self') /\
               mid = waypoints self').
  { intros self D. rewrite setattr_data_run.
    apply Nat.leb_le in L'. rewrite L', D.
    apply valid_route_parts in V. destruct V as (Va & Vz & Vm).
    rewrite (on_data_change_ok _ a z mid _ (destructure_route a z mid) Va Vz Vm).
    cbv zeta. eexists. eexists. split; [reflexivity|].
    match goal with |- context [if ?b then _ else _] => destruct b end;
      repeat split. }
  split; [|split].
  - destruct (init_from_data None (mk_Kwargs (Some (a :: mid ++ [z])) None None None None None)
                a z mid eq_refl) as (ev & self & H & Es & Ee & Ew).
    + intros m Hm. discriminate.
    + exact V.
    + exists ev, self. split; [exact H|].
      pose proof (init_success _ _ _ _ _ _ H) as (_ & Hd & _).
      rewrite Es, Ee, Ew. auto.
  - intros st en w kwargs ev self H. apply G.
    apply init_success in H. destruct H as (_ & -> & _). reflexivity.
  - exact G.
Qed.

(** C8: with [data] given, a [waypoints] argument is never looked at:
    the constructor behaves as if it were absent, and for a list of two
    or more valid points it returns an object whose waypoints are
    [data[1:-1]]; with [data] and a [start] or an [end] that is not
    [None] it raises [ValueError] after the deprecation warning, with no
    object made. *)
Theorem data_discards_waypoints (kwargs : Kwargs) (d : list point) :
  kw_data kwargs = Some d ->
  (forall w,
      Directions___init__ None None (Some w) kwargs tt =
      Directions___init__ None None None kwargs tt) /\
  (forall w,
      (2 <= List.length d)%nat ->
      (forall p, In p d -> in_range p) ->
      (forall m, kw_travel_mode kwargs = Some m -> In m ALLOWED_TRAVEL_MODES) ->
      exists ev self,
        Directions___init__ None None (Some w) kwargs tt = (ev, tt, inr self) /\
        waypoints self = Py.slice d 1 (-1)) /\
  (forall st en w,
      st <> None \/ en <> None ->
      Directions___init__ st en w kwargs tt =
      ([DeprecationWarning obsolete_data_message], tt,
       inl (Py.ValueError both_data_and_route_message))).
Proof.
  intro K. split; [|split].
  - intro w. now rewrite !(init_data_run _ kwargs d K).
  - intros w L V T. destruct (two_or_more d L) as (a & mid & z & ->).
    destruct (init_from_data (Some w) kwargs a z mid K T V)
      as (ev & self & H & _ & _ & Ew).
    exists ev, self. split; [exact H|]. now rewrite slice_middle.
  - intros st en w H. unfold Directions___init__. rewrite K.
    destruct st as [p|], en as [q|]; try reflexivity.
    destruct H; congruence.
Qed.



(** * More properties of the code *)

(** ** Equality of points and the box *)

Lemma point_eqb_iff (a b : point) :
  point_eqb a b = true <->
  latitude a == latitude b /\ longitude a == longitude b.
Proof.
  unfold point_eqb, latitude, longitude.
  rewrite andb_true_iff, !Qeq_bool_iff. reflexivity.
Qed.

Lemma point_eqb_sym (a b : point) :
  point_eqb a b = true -> point_eqb b a = true.
Proof.
  rewrite !point_eqb_iff. intros [H1 H2]. split; symmetry; assumption.
Qed.

Lemma point_eqb_trans (a b c : point) :
  point_eqb a b = true -> point_eqb b c = true -> point_eqb a c = true.
Proof.
  rewrite !point_eqb_iff. intros [H1 H2] [H3 H4].
  split; eapply Qeq_trans; eassumption.
Qed.

Lemma points_eqb_cons (a b : point) (l l' : list point) :
  points_eqb (a :: l) (b :: l') = true <->
  point_eqb a b = true /\ points_eqb l l' = true.
Proof. cbn [points_eqb]. apply andb_true_iff. Qed.

Lemma points_eqb_trans (l1 l2 l3 : list point) :
  points_eqb l1 l2 = true -> points_eqb l2 l3 = true ->
  points_eqb l1 l3 = true.
Proof.
  revert l2 l3. induction l1 as [|a l1 IH]; intros [|b l2] [|c l3];
    try discriminate; try reflexivity.
  rewrite !points_eqb_cons. intros [H1 H2] [H3 H4]. split.
  - eapply point_eqb_trans; eassumption.
  - eapply IH; eassumption.
Qed.

Lemma points_eqb_sym (l1 l2 : list point) :
  points_eqb l1 l2 = true -> points_eqb l2 l1 = true.
Proof.
  revert l2. induction l1 as [|a l1 IH]; intros [|b l2];
    try discriminate; try reflexivity.
  rewrite !points_eqb_cons. intros [H1 H2]. split.
  - apply point_eqb_sym, H1.
  - apply IH, H2.
Qed.

Lemma points_eqb_snoc (l l' : list point) (e e' : point) :
  points_eqb l l' = true -> point_eqb e e' = true ->
  points_eqb (l ++ [e]) (l' ++ [e']) = true.
Proof.
  revert l'. induction l as [|a l IH]; intros [|b l']; try discriminate.
  - intros _ H. cbn [app]. apply points_eqb_cons. auto.
  - rewrite points_eqb_cons. intros [H1 H2] H. cbn [app].
    apply points_eqb_cons. auto.
Qed.

Lemma points_eqb_covers (l l' : list point) :
  points_eqb l l' = true ->
  forall p, In p l -> exists q, In q l' /\ point_eqb p q = true.
Proof.
  revert l'. induction l as [|a l IH]; intros [|b l']; try discriminate.
  - intros _ p [].
  - rewrite points_eqb_cons. intros [H1 H2] p [<- | Hp].
    + exists b. split; [now left | exact H1].
    + destruct (IH l' H2 p Hp) as (q & Hq & E).
      exists q. split; [now right | exact E].
Qed.

Lemma points_eqb_same_points (l l' : list point) :
  points_eqb l l' = true -> same_points l l'.
Proof.
  intro H. split.
  - apply points_eqb_covers, H.
  - apply points_eqb_covers, points_eqb_sym, H.
Qed.

Lemma latitude_respects (p q : point) :
  point_eqb p q = true -> latitude p == latitude q.
Proof. intro H. apply point_eqb_iff in H. tauto. Qed.

Lemma longitude_respects (p q : point) :
  point_eqb p q = true -> longitude p == longitude q.
Proof. intro H. apply point_eqb_iff in H. tauto. Qed.

(** The least coordinate of a list is the least coordinate of any list
    with the same points. *)
Lemma fold_min_le_other (f : point -> Q) (a a' : point) (r r' : list point) :
  (forall p q, point_eqb p q = true -> f p == f q) ->
  (forall p, In p (a :: r) -> exists q, In q (a' :: r') /\ point_eqb p q = true) ->
  fold_left Py.min_step (map f r') (f a')
  <= fold_left Py.min_step (map f r) (f a).
Proof.
  intros Hf Hcov.
  destruct (fold_min_point f a r) as (p & Hp & <-).
  destruct (Hcov p Hp) as (q & Hq & E).
  rewrite (Hf p q E). apply fold_min_below, Hq.
Qed.

Lemma fold_max_ge_other (f : point -> Q) (a a' : point) (r r' : list point) :
  (forall p q, point_eqb p q = true -> f p == f q) ->
  (forall p, In p (a :: r) -> exists q, In q (a' :: r') /\ point_eqb p q = true) ->
  fold_left Py.max_step (map f r) (f a)
  <= fold_left Py.max_step (map f r') (f a').
Proof.
  intros Hf Hcov.
  destruct (fold_max_point f a r) as (p & Hp & <-).
  destruct (Hcov p Hp) as (q & Hq & E).
  rewrite (Hf p q E). apply fold_max_above, Hq.
Qed.

Lemma route_box_unique (a a' : point) (r r' : list point) :
  same_points (a :: r) (a' :: r') ->
  points_eqb (route_box a r) (route_box a' r') = true.
Proof.
  intros [H1 H2]. unfold route_box.
  apply points_eqb_cons. split; [|apply points_eqb_cons; split; [|reflexivity]].
  - apply point_eqb_iff. cbn [latitude longitude fst snd]. split.
    + apply Qle_antisym.
      * apply (fold_min_le_other latitude a' a r' r latitude_respects H2).
      * apply (fold_min_le_other latitude a a' r r' latitude_respects H1).
    + apply Qle_antisym.
      * apply (fold_min_le_other longitude a' a r' r longitude_respects H2).
      * apply (fold_min_le_other longitude a a' r r' longitude_respects H1).
  - apply point_eqb_iff. cbn [latitude longitude fst snd]. split.
    + apply Qle_antisym.
      * apply (fold_max_ge_other latitude a a' r r' latitude_respects H1).
      * apply (fold_max_ge_other latitude a' a r' r latitude_respects H2).
    + apply Qle_antisym.
      * apply (fold_max_ge_other longitude a a' r r' longitude_respects H1).
      * apply (fold_max_ge_other longitude a' a r' r longitude_respects H2).
Qed.

(** X10: the box depends on the points of the route only, not on their
    order or on how often one is visited: two non-empty lists with the
    same points have boxes that are equal ([==]), corner by corner. *)
Theorem bounds_of_same_points (l l' : list point) :
  l <> [] ->
  same_points l l' ->
  exists box box',
    bounds_of l = inr box /\ bounds_of l' = inr box' /\
    points_eqb box box' = true.
Proof.
  intros Hne S. destruct l as [|a r]; [congruence|].
  destruct l' as [|a' r'].
  - destruct S as [S _]. destruct (S a (or_introl eq_refl)) as (q & [] & _).
  - exists (route_box a r), (route_box a' r').
    rewrite !bounds_of_route. repeat split. apply route_box_unique, S.
Qed.

Lemma same_points_rev (l : list point) : same_points l (rev l).
Proof.
  split; intros p Hp; exists p; split;
    try apply point_eqb_refl.
  - apply in_rev in Hp. exact Hp.
  - apply in_rev. exact Hp.
Qed.


(** ** The box follows the route *)

Lemma consistent_silent (box : list point) (s e s' e' : point)
    (w w' : list point) :
  points_eqb box (route_box s (w ++ [e])) = true ->
  point_eqb s s' = true -> points_eqb w w' = true -> point_eqb e e' = true ->
  points_eqb box (route_box s' (w' ++ [e'])) = true.
Proof.
  intros H Hs Hw He. eapply points_eqb_trans; [exact H|].
  apply route_box_unique, points_eqb_same_points, points_eqb_cons.
  split; [exact Hs | apply points_eqb_snoc; assumption].
Qed.

Ltac consistent_goal H :=
  unfold box_consistent; run;
  first
    [ reflexivity
    | eapply consistent_silent; [exact H | ..];
      first [assumption | apply point_eqb_refl | apply points_eqb_refl] ].

Lemma on_data_change_consistent (d : list point) (self : Directions) :
  box_consistent self = true ->
  box_consistent (state_of (_on_data_change (Some d) self)) = true.
Proof.
  intro H. unfold box_consistent in H.
  unfold _on_data_change, hold_trait_notifications.
  destruct (_destructure_data d) as [e0 | [[st en] wp]] eqn:Hd.
  - run. destruct (is_TraitError e0); consistent_goal H.
  - destruct (valid_point st) eqn:Vst;
      [|run; destruct (is_TraitError invalid_point); consistent_goal H].
    destruct (point_eqb (start self) st) eqn:E1;
    (destruct (valid_point en) eqn:Ven;
     [|run; destruct (is_TraitError invalid_point); consistent_goal H]);
    (destruct (point_eqb (end_ self) en) eqn:E2;
     (destruct (forallb valid_point wp) eqn:Vwp;
      [|run; destruct (is_TraitError invalid_point); consistent_goal H]);
     (destruct (points_eqb (waypoints self) wp) eqn:E3; consistent_goal H)).
Qed.

Lemma setattr_start_consistent (value : option point) (self : Directions) :
  box_consistent self = true ->
  box_consistent (state_of (setattr_start value self)) = true.
Proof.
  intro H. rewrite setattr_start_run. destruct value as [p|]; [|exact H].
  destruct (valid_point p); [|exact H]. unfold box_consistent in H.
  destruct (point_eqb (start self) p) eqn:E; consistent_goal H.
Qed.

Lemma setattr_end_consistent (value : option point) (self : Directions) :
  box_consistent self = true ->
  box_consistent (state_of (setattr_end value self)) = true.
Proof.
  intro H. rewrite setattr_end_run. destruct value as [p|]; [|exact H].
  destruct (valid_point p); [|exact H]. unfold box_consistent in H.
  destruct (point_eqb (end_ self) p) eqn:E; consistent_goal H.
Qed.

Lemma setattr_waypoints_consistent (value : option (list point))
    (self : Directions) :
  box_consistent self = true ->
  box_consistent (state_of (setattr_waypoints value self)) = true.
Proof.
  intro H. rewrite setattr_waypoints_run. cbv zeta.
  destruct value as [l|]; [|exact H].
  destruct (forallb valid_point l); [|exact H]. unfold box_consistent in H.
  destruct (points_eqb (waypoints self) l) eqn:E; consistent_goal H.
Qed.

Lemma setattr_data_consistent (value : option (list point)) (self : Directions) :
  box_consistent self = true ->
  box_consistent (state_of (setattr_data value self)) = true.
Proof.
  intro H. rewrite setattr_data_run. destruct value as [d|]; [|exact H].
  destruct (2 <=? List.length d)%nat; [|exact H].
  destruct (data_eqb (data self) (Some d)); [exact H|].
  apply (on_data_change_consistent d (with_data (Some d) self)). exact H.
Qed.

Lemma setattr_travel_mode_run (value : string) (self : Directions) :
  setattr_travel_mode value self =
  if existsb (String.eqb value) ALLOWED_TRAVEL_MODES
  then ([], with_travel_mode value self, inr tt)
  else ([], self, inl Py.TraitError).
Proof.
  unfold setattr_travel_mode, travel_mode_validate, bind, lift, modify.
  destruct (existsb (String.eqb value) ALLOWED_TRAVEL_MODES); reflexivity.
Qed.

Lemma assignment_consistent (self self' : Directions) :
  assignment_elsewhere self self' ->
  box_consistent self = true -> box_consistent self' = true.
Proof.
  intros A H. destruct A.
  - now apply setattr_start_consistent.
  - now apply setattr_end_consistent.
  - now apply setattr_waypoints_consistent.
  - now apply setattr_data_consistent.
  - rewrite setattr_layer_status_run. exact H.
  - rewrite setattr_travel_mode_run.
    destruct (existsb (String.eqb value) ALLOWED_TRAVEL_MODES); exact H.
  - exact H.
  - exact H.
  - exact H.
  - exact H.
Qed.

Lemma hands_off_consistent (self : Directions) :
  reachable_hands_off self -> box_consistent self = true.
Proof.
  induction 1 as [st en w kwargs ev self H | self self' R IH A].
  - apply init_success in H. destruct H as (_ & _ & E).
    unfold box_consistent. rewrite E. apply points_eqb_refl.
  - eapply assignment_consistent; eassumption.
Qed.

Lemma consistent_encloses (self : Directions) :
  box_consistent self = true -> encloses (data_bounds self) (all_data self).
Proof.
  unfold box_consistent. intro H.
  destruct (route_box_is_bounding_box (start self) (waypoints self ++ [end_ self]))
    as (lo & hi & E & Hin & (p1 & I1 & A1) & (p2 & I2 & A2)
        & (p3 & I3 & A3) & (p4 & I4 & A4)).
  rewrite E in H.
  destruct (data_bounds self) as [|lo' [|hi' [|x t]]]; try discriminate.
  - cbn [points_eqb] in H. rewrite andb_false_r in H. discriminate.
  - apply points_eqb_cons in H. destruct H as [Hlo H].
    apply points_eqb_cons in H. destruct H as [Hhi _].
    apply point_eqb_iff in Hlo, Hhi.
    destruct Hlo as [L1 L2], Hhi as [H1 H2].
    exists lo', hi'. split; [reflexivity|].
    change (all_data self) with (start self :: waypoints self ++ [end_ self]).
    split; [|repeat split].
    + intros p Hp. destruct (Hin p Hp) as ((B1 & B2) & (B3 & B4)).
      unfold within. rewrite L1, L2, H1, H2. tauto.
    + exists p1. split; [exact I1|]. rewrite A1. symmetry. exact L1.
    + exists p2. split; [exact I2|]. rewrite A2. symmetry. exact L2.
    + exists p3. split; [exact I3|]. rewrite A3. symmetry. exact H1.
    + exists p4. split; [exact I4|]. rewrite A4. symmetry. exact H2.
  - apply points_eqb_cons in H. destruct H as [_ H].
    apply points_eqb_cons in H. destruct H as [_ H]. discriminate.
Qed.

Lemma route_change_consistent (self self' : Directions) :
  route_update self self' -> route_differs self self' = true ->
  box_consistent self' = true.
Proof.
  intros U D. destruct (route_update_cases self self' U) as [[E _] | E].
  - congruence.
  - unfold box_consistent. rewrite E. apply points_eqb_refl.
Qed.

(** X8: as long as the program does not assign [data_bounds] itself,
    the box follows the route.  In every object the constructor
    returned and that was then assigned to any number of times, on any
    trait but [data_bounds], the assignments returning or raising,
    [data_bounds] is the box of the stored route, coordinates compared
    with [==]: it has two corners, every point of
    [[start] + waypoints + [end]] lies within them, and each of the four
    extrema is the coordinate of a route point.  And in any object at
    all, also one whose [data_bounds] was overwritten, a successful
    assignment that changes the route puts the box back. *)
Theorem data_bounds_encloses_route_unless_overwritten :
  (forall self,
      reachable_hands_off self ->
      box_consistent self = true /\
      encloses (data_bounds self) (all_data self)) /\
  (forall self self',
      route_update self self' ->
      route_differs self self' = true ->
      box_consistent self' = true /\
      encloses (data_bounds self') (all_data self')).
Proof.
  split.
  - intros self R. pose proof (hands_off_consistent self R) as H.
    split; [exact H | apply consistent_encloses, H].
  - intros self self' U D.
    pose proof (route_change_consistent self self' U D) as H.
    split; [exact H | apply consistent_encloses, H].
Qed.


(** ** What an assignment leaves alone *)

Ltac untouched :=
  unfold same_options, state_of;
  cbn [fst snd data travel_mode avoid_ferries avoid_highways avoid_tolls
       optimize_waypoints layer_status with_start with_end with_waypoints
       with_data_bounds];
  repeat split; reflexivity.

Lemma setattr_start_rest (value : option point) (self : Directions) :
  same_options self (state_of (setattr_start value self)) /\
  data (state_of (setattr_start value self)) = data self.
Proof.
  rewrite setattr_start_run. destruct value as [p|]; [|untouched].
  destruct (valid_point p); [|untouched].
  destruct (point_eqb (start self) p); untouched.
Qed.

Lemma setattr_end_rest (value : option point) (self : Directions) :
  same_options self (state_of (setattr_end value self)) /\
  data (state_of (setattr_end value self)) = data self.
Proof.
  rewrite setattr_end_run. destruct value as [p|]; [|untouched].
  destruct (valid_point p); [|untouched].
  destruct (point_eqb (end_ self) p); untouched.
Qed.

Lemma setattr_waypoints_rest (value : option (list point)) (self : Directions) :
  same_options self (state_of (setattr_waypoints value self)) /\
  data (state_of (setattr_waypoints value self)) = data self.
Proof.
  rewrite setattr_waypoints_run. cbv zeta. destruct value as [l|].
  - destruct (forallb valid_point l); [|untouched].
    destruct (points_eqb (waypoints self) l); untouched.
  - untouched.
Qed.

(** X13: an assignment to [start], [end] or [waypoints], whatever the
    value and whether it returns or raises, leaves [data], [travel_mode],
    the four flags and [layer_status] as they were. *)
Theorem route_assignment_keeps_rest (self : Directions) :
  (forall value,
      let self' := state_of (setattr_start value self) in
      same_options self self' /\ data self' = data self) /\
  (forall value,
      let self' := state_of (setattr_end value self) in
      same_options self self' /\ data self' = data self) /\
  (forall value,
      let self' := state_of (setattr_waypoints value self) in
      same_options self self' /\ data self' = data self).
Proof.
  split; [|split]; intros value self'; subst self'.
  - apply setattr_start_rest.
  - apply setattr_end_rest.
  - apply setattr_waypoints_rest.
Qed.

Lemma setattr_data_options (value : option (list point)) (self : Directions) :
  same_options self (state_of (setattr_data value self)).
Proof.
  rewrite setattr_data_run. destruct value as [d|]; [|untouched].
  destruct (2 <=? List.length d)%nat; [|untouched].
  destruct (data_eqb (data self) (Some d)); [untouched|].
  apply (on_data_change_any d (with_data (Some d) self)).
Qed.

(** The [data] trait after an assignment to it. *)
Lemma setattr_data_stored (value : option (list point)) (self : Directions) :
  data (state_of (setattr_data value self)) =
  match value with
  | None => None
  | Some d => if (2 <=? List.length d)%nat then Some d else data self
  end.
Proof.
  rewrite setattr_data_run. destruct value as [d|]; [|reflexivity].
  destruct (2 <=? List.length d)%nat; [|reflexivity].
  destruct (data_eqb (data self) (Some d)); [reflexivity|].
  destruct (on_data_change_any d (with_data (Some d) self)) as (_ & E & _).
  exact E.
Qed.

(** ** Construction, field by field *)

Lemma allowed_travel_mode (value : string) :
  existsb (String.eqb value) ALLOWED_TRAVEL_MODES = true <->
  In value ALLOWED_TRAVEL_MODES.
Proof.
  rewrite existsb_exists. split.
  - intros (m & Hm & E). apply String.eqb_eq in E. now subst.
  - intro H. exists value. split; [exact H | apply String.eqb_refl].
Qed.

Lemma default_travel_mode_allowed : In DEFAULT_TRAVEL_MODE ALLOWED_TRAVEL_MODES.
Proof. right. left. reflexivity. Qed.

Lemma travel_mode_keyword_run (keyword : option string) :
  match keyword with
  | Some m => travel_mode_validate m
  | None => inr DEFAULT_TRAVEL_MODE
  end =
  if match keyword with
     | Some m => existsb (String.eqb m) ALLOWED_TRAVEL_MODES
     | None => true
     end
  then inr (keyword_or DEFAULT_TRAVEL_MODE keyword)
  else inl Py.TraitError.
Proof.
  destruct keyword as [m|]; [|reflexivity].
  unfold travel_mode_validate.
  destruct (existsb (String.eqb m) ALLOWED_TRAVEL_MODES); reflexivity.
Qed.


Lemma travel_mode_keyword_ok_iff (keyword : option string) :
  match keyword with
  | Some m => existsb (String.eqb m) ALLOWED_TRAVEL_MODES
  | None => true
  end = true <-> travel_mode_keyword_ok keyword.
Proof.
  destruct keyword as [m|]; cbn [travel_mode_keyword_ok].
  - apply allowed_travel_mode.
  - tauto.
Qed.

Lemma forallb_in_range (l : list point) :
  forallb valid_point l = true <-> (forall p, In p l -> in_range p).
Proof.
  rewrite forallb_forall. split; intros H p Hp; apply valid_point_iff, H, Hp.
Qed.

(** What [HasTraits___init__] returns, and when. *)
Lemma HasTraits_init_iff (rest : Kwargs) (st en : option point)
    (wl : list point) (self : Directions) :
  outcome_of (HasTraits___init__ (mk_TraitKwargs rest st en wl) tt) = inr self <->
  exists s e box,
    st = Some s /\ en = Some e /\
    in_range s /\ in_range e /\ (forall p, In p wl -> in_range p) /\
    travel_mode_keyword_ok (kw_travel_mode rest) /\
    bounds_of ([s] ++ wl ++ [e]) = inr box /\
    self = mk_Directions s e wl None box
             (keyword_or false (kw_avoid_ferries rest))
             (keyword_or false (kw_avoid_highways rest))
             (keyword_or false (kw_avoid_tolls rest))
             (keyword_or false (kw_optimize_waypoints rest))
             (keyword_or DEFAULT_TRAVEL_MODE (kw_travel_mode rest))
             EmptyString.
Proof.
  rewrite HasTraits_init_run.
  cbn [tk_rest tk_start tk_end tk_waypoints]. rewrite travel_mode_keyword_run.
  unfold outcome_of.
  destruct (match kw_travel_mode rest with
            | Some m => existsb (String.eqb m) ALLOWED_TRAVEL_MODES
            | None => true
            end) eqn:T.
  2:{ split; [discriminate|].
      intros (s & e & box & _ & _ & _ & _ & _ & Hm & _).
      apply travel_mode_keyword_ok_iff in Hm. congruence. }
  destruct st as [s|]; cbn [Point_validate].
  2:{ split; [discriminate|]. intros (s & e & box & H & _). discriminate. }
  destruct (valid_point s) eqn:Vs.
  2:{ split; [discriminate|].
      intros (s' & e & box & H & _ & Hs & _). inversion H; subst s'.
      apply valid_point_iff in Hs. congruence. }
  destruct en as [e|]; cbn [Point_validate].
  2:{ split; [discriminate|]. intros (s' & e & box & _ & H & _). discriminate. }
  destruct (valid_point e) eqn:Ve.
  2:{ split; [discriminate|].
      intros (s' & e' & box & _ & H & _ & He & _). inversion H; subst e'.
      apply valid_point_iff in He. congruence. }
  destruct (forallb valid_point wl) eqn:Vw.
  2:{ split; [discriminate|].
      intros (s' & e' & box & _ & _ & _ & _ & Hw & _).
      apply forallb_in_range in Hw. congruence. }
  cbn [snd]. split.
  - intro H. inversion H; subst self; clear H.
    exists s, e, (route_box s (wl ++ [e])).
    split; [reflexivity|]. split; [reflexivity|].
    split; [apply valid_point_iff, Vs|].
    split; [apply valid_point_iff, Ve|].
    split; [apply forallb_in_range, Vw|].
    split; [apply travel_mode_keyword_ok_iff, T|].
    split; reflexivity.
  - intros (s' & e' & box & Hs & He & _ & _ & _ & _ & Hb & ->).
    inversion Hs; subst s'. inversion He; subst e'.
    cbn [app] in Hb. rewrite bounds_of_route in Hb. inversion Hb; subst box.
    reflexivity.
Qed.


Lemma HasTraits_init_cases (kwargs : TraitKwargs) :
  let r := HasTraits___init__ kwargs tt in
  (events_of r = [] /\
   (outcome_of r = inl Py.TraitError \/ outcome_of r = inl invalid_point)) \/
  (events_of r = [Print "validating"] /\ exists self, outcome_of r = inr self).
Proof.
  cbv zeta. rewrite HasTraits_init_run, travel_mode_keyword_run.
  unfold events_of, outcome_of, Point_validate.
  destruct (match kw_travel_mode (tk_rest kwargs) with
            | Some m => existsb (String.eqb m) ALLOWED_TRAVEL_MODES
            | None => true
            end); [|left; auto].
  destruct (tk_start kwargs) as [s|]; [|left; auto].
  destruct (valid_point s); [|left; auto].
  destruct (tk_end kwargs) as [e|]; [|left; auto].
  destruct (valid_point e); [|left; auto].
  destruct (forallb valid_point (tk_waypoints kwargs)); [|left; auto].
  right. cbn [fst snd]. split; [reflexivity|]. eexists. reflexivity.
Qed.

(** Every object the constructor returns was made by
    [HasTraits___init__] from the keywords of the call. *)
Lemma init_via_HasTraits (st en : option point) (w : option (list point))
    (kwargs : Kwargs) (ev : list event) (self : Directions) :
  Directions___init__ st en w kwargs tt = (ev, tt, inr self) ->
  exists st' en' wl,
    outcome_of (HasTraits___init__
                  (mk_TraitKwargs (with_kw_data None kwargs) st' en' wl) tt)
    = inr self.
Proof.
  destruct (kw_data kwargs) as [d|] eqn:K.
  - unfold Directions___init__, kwargs_get_waypoints. rewrite K. run.
    destruct st, en; run; try discriminate.
    destruct (_destructure_data d) as [e|[[s0 e0] wps]]; [discriminate|].
    destruct (HasTraits___init__ _ tt) as [[ev1 []] [e|self1]] eqn:HT;
      [discriminate|].
    intro H. inversion H; subst; clear H.
    exists (Some s0), (Some e0), wps. rewrite HT. reflexivity.
  - rewrite (init_plain_run st en w kwargs K). cbv zeta.
    intro H. inversion H as [[He Ho]].
    exists st, en, (match w with Some l => l | None => [] end).
    assert (E : with_kw_data None kwargs = kwargs).
    { destruct kwargs as [kd ktm kaf kah kat kow]. cbn in K. subst kd.
      reflexivity. }
    rewrite E. congruence.
Qed.

(** X1: called without [data], the constructor returns an object exactly
    when [start] and [end] are points in range, every waypoint is in
    range and [travel_mode], if given, is one of the four allowed modes;
    the object then holds these values, [False] for a flag that was not
    given, ['DRIVING'] for a mode that was not given, [data = None], an
    empty [layer_status], and in [data_bounds] the box of the route. *)
Theorem constructor_without_data (st en : option point)
    (w : option (list point)) (tm : option string)
    (af ah atl ow : option bool) (self : Directions) :
  let wl := match w with Some l => l | None => [] end in
  outcome_of (Directions___init__ st en w (mk_Kwargs None tm af ah atl ow) tt)
  = inr self <->
  exists s e box,
    st = Some s /\ en = Some e /\
    in_range s /\ in_range e /\ (forall p, In p wl -> in_range p) /\
    travel_mode_keyword_ok tm /\
    bounds_of ([s] ++ wl ++ [e]) = inr box /\
    self = mk_Directions s e wl None box
             (keyword_or false af) (keyword_or false ah)
             (keyword_or false atl) (keyword_or false ow)
             (keyword_or DEFAULT_TRAVEL_MODE tm) EmptyString.
Proof.
  cbv zeta.
  rewrite (init_plain_run st en w (mk_Kwargs None tm af ah atl ow) eq_refl).
  cbv zeta. unfold outcome_of at 1. cbn [snd].
  apply (HasTraits_init_iff (mk_Kwargs None tm af ah atl ow)).
Qed.

(** X2: for a start, an end and waypoints in range and an allowed mode,
    [directions_layer] returns the object that holds exactly the
    arguments, with [data = None], an empty [layer_status] and the box
    of the route, and emits no warning. *)
Theorem directions_layer_returns (s e : point) (wl : list point)
    (af : bool) (tm : string) (ah atl ow : bool) :
  in_range s -> in_range e -> (forall p, In p wl -> in_range p) ->
  In tm ALLOWED_TRAVEL_MODES ->
  exists box,
    bounds_of ([s] ++ wl ++ [e]) = inr box /\
    directions_layer (Some s) (Some e) (Some wl) af tm ah atl ow tt =
    ([Print "validating"], tt,
     inr (mk_Directions s e wl None box af ah atl ow tm EmptyString)).
Proof.
  intros Hs He Hw Hm. exists (route_box s (wl ++ [e])).
  split; [apply bounds_of_route|].
  unfold directions_layer.
  rewrite (init_plain_run (Some s) (Some e) (Some wl)
             (mk_Kwargs None (Some tm) (Some af) (Some ah) (Some atl) (Some ow))
             eq_refl).
  cbv zeta.
  rewrite HasTraits_init_run, travel_mode_keyword_run.
  cbn [tk_rest tk_start tk_end tk_waypoints kw_travel_mode kw_avoid_ferries
       kw_avoid_highways kw_avoid_tolls kw_optimize_waypoints Point_validate
       keyword_or].
  apply valid_point_iff in Hs, He. apply forallb_in_range in Hw.
  apply allowed_travel_mode in Hm. rewrite Hs, He, Hw, Hm. reflexivity.
Qed.

(** X14: [directions_layer] never takes the legacy path: whatever its
    arguments, the only exceptions it raises are those of the trait
    validators, it never warns about [data], and it warns about
    [waypoints] exactly when [waypoints] is [None]. *)
Theorem directions_layer_only_validates (st en : option point)
    (w : option (list point)) (af : bool) (tm : string) (ah atl ow : bool) :
  let r := directions_layer st en w af tm ah atl ow tt in
  (forall e, outcome_of r = inl e -> e = Py.TraitError \/ e = invalid_point) /\
  ~ warned obsolete_data_message (events_of r) /\
  (warned obsolete_waypoints_message (events_of r) <-> w = None).
Proof.
  cbv zeta. unfold directions_layer.
  rewrite (init_plain_run st en w
             (mk_Kwargs None (Some tm) (Some af) (Some ah) (Some atl) (Some ow))
             eq_refl).
  cbv zeta.
  match goal with
  | |- context [HasTraits___init__ ?k tt] =>
      pose proof (HasTraits_init_cases k) as C; cbv zeta in C
  end.
  unfold warned, outcome_of, events_of in *. cbn [fst snd] in *.
  assert (D : DeprecationWarning obsolete_data_message
              <> DeprecationWarning obsolete_waypoints_message).
  { intro H. vm_compute in H. discriminate H. }
  destruct C as [[Ev [O | O]] | [Ev (self & O)]]; rewrite Ev, O;
    destruct w as [l|]; cbn [app In].
  all: split; [intros e H; inversion H; auto|].
  all: split; [intuition congruence|].
  all: split; [intuition congruence | intro H; try discriminate H; auto].
Qed.


(** X16: the constructor warns about [data] exactly when [data] is given
    and not [None], and about [waypoints] exactly when [data] is not
    given and [waypoints] is [None] or left out; a call with [start],
    [end] and a list of waypoints emits no deprecation warning. *)
Theorem constructor_warnings (st en : option point)
    (w : option (list point)) (kwargs : Kwargs) :
  let r := Directions___init__ st en w kwargs tt in
  (warned obsolete_data_message (events_of r) <-> kw_data kwargs <> None) /\
  (warned obsolete_waypoints_message (events_of r) <->
   kw_data kwargs = None /\ w = None).
Proof.
  cbv zeta.
  assert (D : DeprecationWarning obsolete_data_message
              <> DeprecationWarning obsolete_waypoints_message).
  { intro H. vm_compute in H. discriminate H. }
  destruct (kw_data kwargs) as [d|] eqn:K.
  - assert (E : exists tail,
               events_of (Directions___init__ st en w kwargs tt)
               = DeprecationWarning obsolete_data_message :: tail /\
               (tail = [] \/ tail = [Print "validating"])).
    { destruct st as [s|].
      { unfold Directions___init__. rewrite K. run. eauto. }
      destruct en as [e|].
      { unfold Directions___init__. rewrite K. run. eauto. }
      rewrite (init_data_run w kwargs d K).
      destruct (_destructure_data d) as [e|[[s0 e0] wps]]; [run; eauto|].
      cbv zeta.
      match goal with
      | |- context [HasTraits___init__ ?k tt] =>
          pose proof (HasTraits_init_cases k) as C; cbv zeta in C
      end.
      unfold events_of at 1. cbn [fst]. eexists. split; [reflexivity|].
      destruct C as [[Ev _] | [Ev _]]; rewrite Ev; auto. }
    destruct E as (tail & -> & T). unfold warned.
    split; (split; [|intro H]).
    + intros _. discriminate.
    + now left.
    + intros [H | H]; [congruence|].
      destruct T as [-> | ->]; cbn [In] in H; intuition congruence.
    + destruct H. discriminate.
  - rewrite (init_plain_run st en w kwargs K). cbv zeta.
    match goal with
    | |- context [HasTraits___init__ ?k tt] =>
        pose proof (HasTraits_init_cases k) as C; cbv zeta in C
    end.
    unfold warned, outcome_of, events_of in *. cbn [fst snd] in *.
    destruct C as [[Ev _] | [Ev _]]; rewrite Ev;
      destruct w as [l|]; cbn [app In];
      (split; split; intro H;
       [ intuition congruence | congruence
       | intuition congruence | destruct H; try discriminate; auto ]).
Qed.

(** X4: the legacy call is the canonical call.  If [data] splits into
    [(start, end, waypoints)], then [Directions(data=data, ...)] has the
    outcome of [Directions(start, end, waypoints, ...)] with the same
    options, object for object and exception for exception, and its
    events are those of the canonical call after the [data] warning. *)
Theorem legacy_call_is_canonical_call (d : list point) (s e : point)
    (mid : list point) (w : option (list point)) (tm : option string)
    (af ah atl ow : option bool) :
  _destructure_data d = inr (s, e, mid) ->
  let legacy :=
    Directions___init__ None None w (mk_Kwargs (Some d) tm af ah atl ow) tt in
  let canonical :=
    Directions___init__ (Some s) (Some e) (Some mid)
      (mk_Kwargs None tm af ah atl ow) tt in
  outcome_of legacy = outcome_of canonical /\
  events_of legacy = DeprecationWarning obsolete_data_message :: events_of canonical.
Proof.
  intros H legacy canonical. subst legacy canonical.
  rewrite (init_data_run w (mk_Kwargs (Some d) tm af ah atl ow) d eq_refl), H.
  rewrite (init_plain_run (Some s) (Some e) (Some mid)
             (mk_Kwargs None tm af ah atl ow) eq_refl).
  cbv zeta. split; reflexivity.
Qed.

Lemma min_step_same (x : Q) : Py.min_step x x = x.
Proof. unfold Py.min_step. destruct (Py.ltb x x); reflexivity. Qed.

Lemma max_step_same (x : Q) : Py.max_step x x = x.
Proof. unfold Py.max_step. destruct (Py.gtb x x); reflexivity. Qed.

Lemma route_box_there_and_back (p : point) : route_box p [p] = [p; p].
Proof.
  destruct p as [a b]. unfold route_box.
  cbn [map fold_left latitude longitude fst snd].
  now rewrite !min_step_same, !max_step_same.
Qed.

(** X5: the constructor does not hold [data] to the two points the trait
    asks for.  With an empty list it raises [IndexError] after the
    warning; with a single point in range it returns an object whose
    start and end are that point, with no waypoints and a box that is
    the point; assigning a list of fewer than two points to the trait
    raises [TraitError] and changes nothing. *)
Theorem constructor_short_data (w : option (list point)) (tm : option string)
    (af ah atl ow : option bool) :
  Directions___init__ None None w (mk_Kwargs (Some []) tm af ah atl ow) tt
  = ([DeprecationWarning obsolete_data_message], tt, inl Py.IndexError) /\
  (forall p,
      in_range p -> travel_mode_keyword_ok tm ->
      Directions___init__ None None w (mk_Kwargs (Some [p]) tm af ah atl ow) tt
      = ([DeprecationWarning obsolete_data_message; Print "validating"], tt,
         inr (mk_Directions p p [] None [p; p]
                (keyword_or false af) (keyword_or false ah)
                (keyword_or false atl) (keyword_or false ow)
                (keyword_or DEFAULT_TRAVEL_MODE tm) EmptyString))) /\
  (forall self d,
      (List.length d < 2)%nat ->
      setattr_data (Some d) self = ([], self, inl Py.TraitError)).
Proof.
  split; [|split].
  - rewrite (init_data_run w (mk_Kwargs (Some []) tm af ah atl ow) [] eq_refl).
    reflexivity.
  - intros p Hp Hm.
    rewrite (init_data_run w (mk_Kwargs (Some [p]) tm af ah atl ow) [p] eq_refl).
    change (_destructure_data [p]) with (@inr Py.exn _ (p, p, @nil point)).
    cbv beta iota zeta. rewrite HasTraits_init_run, travel_mode_keyword_run.
    cbn [tk_rest tk_start tk_end tk_waypoints with_kw_data kw_travel_mode
         kw_avoid_ferries kw_avoid_highways kw_avoid_tolls
         kw_optimize_waypoints Point_validate forallb app].
    apply valid_point_iff in Hp. apply travel_mode_keyword_ok_iff in Hm.
    rewrite Hp, Hm, route_box_there_and_back. reflexivity.
  - intros self d L. rewrite setattr_data_run.
    replace (2 <=? List.length d)%nat with false; [reflexivity|].
    symmetry. apply Nat.leb_gt. exact L.
Qed.


(** ** Assignments to [data], one after another *)

Lemma with_data_same (self : Directions) (v : option (list point)) :
  data self = v -> with_data v self = self.
Proof. destruct self. cbn. intros <-. reflexivity. Qed.

Lemma setattr_data_normalises (a z : point) (mid : list point)
    (self : Directions) :
  (forall p, In p (a :: mid ++ [z]) -> in_range p) ->
  data_eqb (data self) (Some (a :: mid ++ [z])) = false ->
  exists ev self',
    setattr_data (Some (a :: mid ++ [z])) self = (ev, self', inr tt) /\
    start self' = a /\ end_ self' = z /\ waypoints self' = mid /\
    data self' = Some (a :: mid ++ [z]).
Proof.
  intros V D. rewrite setattr_data_run.
  replace (2 <=? List.length (a :: mid ++ [z]))%nat with true.
  2:{ symmetry. apply Nat.leb_le. cbn [List.length]. rewrite length_app.
      cbn [List.length]. lia. }
  rewrite D.
  apply valid_route_parts in V. destruct V as (Va & Vz & Vm).
  rewrite (on_data_change_ok _ a z mid _ (destructure_route a z mid) Va Vz Vm).
  cbv zeta. eexists. eexists. split; [reflexivity|].
  match goal with |- context [if ?b then _ else _] => destruct b end;
    repeat split.
Qed.

(** X6: assigning [None] to [data] raises nothing, emits nothing and
    changes only [data]; after it, assigning a list of two or more
    points in range normalises again, whatever [data] held before: the
    assignment returns, [[start] + waypoints + [end]] is the list and
    [data] holds it. *)
Theorem clearing_data_rearms_it (d : list point) (self : Directions) :
  (2 <= List.length d)%nat ->
  (forall p, In p d -> in_range p) ->
  let cleared := setattr_data None self in
  cleared = ([], with_data None self, inr tt) /\
  exists ev self',
    setattr_data (Some d) (state_of cleared) = (ev, self', inr tt) /\
    all_data self' = d /\ data self' = Some d.
Proof.
  intros L V cleared. subst cleared. rewrite setattr_data_run.
  split; [reflexivity|].
  destruct (two_or_more d L) as (a & mid & z & ->).
  destruct (setattr_data_normalises a z mid
              (state_of ([] : list event, with_data None self,
                         inr tt : Py.exn + unit)) V eq_refl)
    as (ev & self' & H & Es & Ee & Ew & Ed).
  exists ev, self'. split; [exact H|]. split; [|exact Ed].
  unfold all_data. rewrite Es, Ee, Ew. reflexivity.
Qed.

Lemma on_data_change_warns (d : list point) (self : Directions) :
  exists rest,
    events_of (_on_data_change (Some d) self)
    = DeprecationWarning obsolete_data_message :: rest.
Proof.
  unfold _on_data_change, _warn_obsolete_data, bind, emit.
  destruct (hold_trait_notifications _ self) as [[ev2 s2] r].
  eexists. reflexivity.
Qed.

(** X7: the list is stored before it is looked at.  When a list of two
    or more points that differs from the stored value is assigned to
    [data], the deprecation warning comes first and [data] holds the
    list afterwards whatever the outcome; if one of its points is out of
    range the assignment raises, and [data] holds the list all the
    same. *)
Theorem data_is_stored_before_it_is_checked (d : list point)
    (self : Directions) :
  (2 <= List.length d)%nat ->
  data_eqb (data self) (Some d) = false ->
  let r := setattr_data (Some d) self in
  data (state_of r) = Some d /\
  (exists rest,
      events_of r = DeprecationWarning obsolete_data_message :: rest) /\
  ((exists p, In p d /\ out_of_range p) -> exists e, outcome_of r = inl e).
Proof.
  intros L D r. subst r. split; [|split].
  - rewrite setattr_data_stored. apply Nat.leb_le in L. now rewrite L.
  - rewrite setattr_data_run. apply Nat.leb_le in L. rewrite L, D.
    apply on_data_change_warns.
  - intros (p & Hp & Hout).
    destruct (outcome_of (setattr_data (Some d) self)) as [e|[]] eqn:O;
      [eauto|].
    exfalso. rewrite setattr_data_run in O.
    pose proof L as L'. apply Nat.leb_le in L'. rewrite L', D in O.
    apply on_data_change_success in O.
    destruct O as (st & en & wp & Hd & Vs & Ve & Vw).
    destruct (two_or_more d L) as (a & mid & z & ->).
    rewrite destructure_route in Hd. inversion Hd; subst st en wp.
    apply Hout, valid_point_iff.
    destruct Hp as [<- | Hp]; [exact Vs|].
    apply in_app_or in Hp. destruct Hp as [Hp | [<- | []]]; [|exact Ve].
    rewrite forallb_forall in Vw. apply Vw, Hp.
Qed.

(** X15: assigning the same list to [data] a second time does nothing:
    the object stays as the first assignment left it and nothing is
    emitted; the second assignment returns if the list has two or more
    points (even when the first one raised) and raises [TraitError]
    otherwise. *)
Theorem data_reassignment_is_silent (d : list point) (self : Directions) :
  let first := setattr_data (Some d) self in
  let second := setattr_data (Some d) (state_of first) in
  state_of second = state_of first /\
  events_of second = [] /\
  outcome_of second =
    if (2 <=? List.length d)%nat then inr tt else inl Py.TraitError.
Proof.
  cbv zeta.
  pose proof (setattr_data_stored (Some d) self) as S. cbv beta iota in S.
  rewrite (setattr_data_run (Some d) (state_of (setattr_data (Some d) self))).
  destruct (2 <=? List.length d)%nat eqn:L.
  - rewrite S. cbn [data_eqb]. rewrite points_eqb_refl.
    rewrite (with_data_same _ _ S). repeat split.
  - repeat split.
Qed.

(** ** The observers on their own *)

(** X11: [_calc_bounds] can be run on any object: it returns, emits
    nothing, writes [data_bounds] only, leaves there the box of
    [[start] + waypoints + [end]], and a second run changes nothing. *)
Theorem calc_bounds_is_total_and_idempotent (self : Directions) :
  let r := _calc_bounds self in
  outcome_of r = inr tt /\ events_of r = [] /\
  start (state_of r) = start self /\ end_ (state_of r) = end_ self /\
  waypoints (state_of r) = waypoints self /\ data (state_of r) = data self /\
  same_options self (state_of r) /\
  is_bounding_box (all_data (state_of r)) (data_bounds (state_of r)) /\
  _calc_bounds (state_of r) = ([], state_of r, inr tt).
Proof.
  cbv zeta. rewrite calc_bounds_run. unfold outcome_of, events_of, state_of.
  cbn [fst snd]. repeat (split; [reflexivity|]).
  split; [unfold same_options; repeat split|]. split.
  - apply route_box_is_bounding_box.
  - reflexivity.
Qed.

(** X12: a status reported twice is handled once.  Whatever the status
    and whatever the first assignment did, assigning the same value to
    [layer_status] again raises nothing, emits nothing and leaves the
    object as it was; and an assignment to [layer_status] changes no
    other trait, even when it raises. *)
Theorem layer_status_repeat_is_silent (self : Directions) (status : string) :
  let first := setattr_layer_status status self in
  state_of first = with_layer_status status self /\
  setattr_layer_status status (state_of first) = ([], state_of first, inr tt).
Proof.
  cbv zeta. rewrite !setattr_layer_status_run. unfold state_of. cbn [fst snd].
  split; [reflexivity|].
  cbn [layer_status with_layer_status]. rewrite String.eqb_refl. reflexivity.
Qed.


(** ** What holds of every object *)

Lemma init_travel_mode (st en : option point) (w : option (list point))
    (kwargs : Kwargs) (ev : list event) (self : Directions) :
  Directions___init__ st en w kwargs tt = (ev, tt, inr self) ->
  In (travel_mode self) ALLOWED_TRAVEL_MODES.
Proof.
  intro H. apply init_via_HasTraits in H.
  destruct H as (st' & en' & wl & H).
  apply HasTraits_init_iff in H.
  destruct H as (s & e & box & _ & _ & _ & _ & _ & Hm & _ & ->).
  cbn [travel_mode with_kw_data kw_travel_mode] in *.
  destruct (kw_travel_mode kwargs) as [m|]; cbn [keyword_or].
  - exact Hm.
  - apply default_travel_mode_allowed.
Qed.

(** [data] is [None] or a list of two or more points. *)
Lemma assignment_keeps_data_shape (self self' : Directions) :
  assignment self self' ->
  (data self = None \/ exists d, data self = Some d /\ (2 <= List.length d)%nat) ->
  data self' = None \/ exists d, data self' = Some d /\ (2 <= List.length d)%nat.
Proof.
  intros A H. destruct A as [s s' A | v s]; [destruct A|exact H].
  - destruct (setattr_start_rest value self) as [_ ->]. exact H.
  - destruct (setattr_end_rest value self) as [_ ->]. exact H.
  - destruct (setattr_waypoints_rest value self) as [_ ->]. exact H.
  - rewrite setattr_data_stored. destruct value as [d|]; [|now left].
    destruct (2 <=? List.length d)%nat eqn:L; [|exact H].
    right. exists d. split; [reflexivity | apply Nat.leb_le, L].
  - rewrite setattr_layer_status_run. exact H.
  - rewrite setattr_travel_mode_run.
    destruct (existsb (String.eqb value) ALLOWED_TRAVEL_MODES); exact H.
  - exact H.
  - exact H.
  - exact H.
  - exact H.
Qed.

Lemma assignment_keeps_travel_mode_allowed (self self' : Directions) :
  assignment self self' ->
  In (travel_mode self) ALLOWED_TRAVEL_MODES ->
  In (travel_mode self') ALLOWED_TRAVEL_MODES.
Proof.
  intros A H. destruct A as [s s' A | v s]; [destruct A|exact H].
  - destruct (setattr_start_rest value self) as [(-> & _) _]. exact H.
  - destruct (setattr_end_rest value self) as [(-> & _) _]. exact H.
  - destruct (setattr_waypoints_rest value self) as [(-> & _) _]. exact H.
  - destruct (setattr_data_options value self) as (-> & _). exact H.
  - rewrite setattr_layer_status_run. exact H.
  - rewrite setattr_travel_mode_run.
    destruct (existsb (String.eqb value) ALLOWED_TRAVEL_MODES) eqn:E; [|exact H].
    apply allowed_travel_mode, E.
  - exact H.
  - exact H.
  - exact H.
  - exact H.
Qed.

Lemma valid_route_iff (self : Directions) :
  valid_state self = true <-> (forall p, In p (all_data self) -> in_range p).
Proof.
  unfold valid_state, all_data. rewrite !andb_true_iff, forallb_forall.
  split.
  - intros [[Hs He] Hw] p Hp. apply valid_point_iff.
    cbn [app] in Hp. destruct Hp as [<- | Hp]; [exact Hs|].
    apply in_app_or in Hp. destruct Hp as [Hp | [<- | []]]; auto.
  - intro H. split; [split|].
    + apply valid_point_iff, H. cbn [app]. now left.
    + apply valid_point_iff, H. cbn [app]. right.
      apply in_or_app. right. now left.
    + intros p Hp. apply valid_point_iff, H. cbn [app]. right.
      apply in_or_app. now left.
Qed.

Lemma valid_widget_route (self : Directions) :
  valid_widget self = true -> valid_state self = true.
Proof.
  unfold valid_widget. intro H. apply andb_true_iff in H. tauto.
Qed.

Lemma setattr_start_valid_route (value : option point) (self : Directions) :
  valid_state self = true ->
  valid_state (state_of (setattr_start value self)) = true.
Proof.
  intro V. pose proof V as V'. apply valid_state_parts in V'.
  destruct V' as (Vs & Ve & Vw).
  rewrite setattr_start_run. destruct value as [p|]; [|exact V].
  destruct (valid_point p) eqn:Vp; [|exact V].
  destruct (point_eqb (start self) p); unfold valid_state; run; reflexivity.
Qed.

Lemma setattr_end_valid_route (value : option point) (self : Directions) :
  valid_state self = true ->
  valid_state (state_of (setattr_end value self)) = true.
Proof.
  intro V. pose proof V as V'. apply valid_state_parts in V'.
  destruct V' as (Vs & Ve & Vw).
  rewrite setattr_end_run. destruct value as [p|]; [|exact V].
  destruct (valid_point p) eqn:Vp; [|exact V].
  destruct (point_eqb (end_ self) p); unfold valid_state; run; reflexivity.
Qed.

Lemma setattr_waypoints_valid_route (value : option (list point))
    (self : Directions) :
  valid_state self = true ->
  valid_state (state_of (setattr_waypoints value self)) = true.
Proof.
  intro V. pose proof V as V'. apply valid_state_parts in V'.
  destruct V' as (Vs & Ve & Vw).
  rewrite setattr_waypoints_run. cbv zeta. destruct value as [l|]; [|exact V].
  destruct (forallb valid_point l) eqn:Vl; [|exact V].
  destruct (points_eqb (waypoints self) l); unfold valid_state; run; reflexivity.
Qed.

Lemma setattr_data_valid_route (value : option (list point)) (self : Directions) :
  valid_state self = true ->
  valid_state (state_of (setattr_data value self)) = true.
Proof.
  intro V. rewrite setattr_data_run. destruct value as [d|]; [|exact V].
  destruct (2 <=? List.length d)%nat; [|exact V].
  destruct (data_eqb (data self) (Some d)); [exact V|].
  apply (on_data_change_any d (with_data (Some d) self)). exact V.
Qed.

Lemma assignment_keeps_valid_route (self self' : Directions) :
  assignment self self' ->
  valid_state self = true -> valid_state self' = true.
Proof.
  intros A H. destruct A as [s s' A | v s]; [destruct A|exact H].
  - now apply setattr_start_valid_route.
  - now apply setattr_end_valid_route.
  - now apply setattr_waypoints_valid_route.
  - now apply setattr_data_valid_route.
  - rewrite setattr_layer_status_run. exact H.
  - rewrite setattr_travel_mode_run.
    destruct (existsb (String.eqb value) ALLOWED_TRAVEL_MODES); exact H.
  - exact H.
  - exact H.
  - exact H.
  - exact H.
Qed.

Lemma assignment_keeps_valid (self self' : Directions) :
  assignment_elsewhere self self' ->
  valid_widget self = true -> valid_widget self' = true.
Proof.
  intros A H. destruct A.
  - now apply setattr_start_valid.
  - now apply setattr_end_valid.
  - now apply setattr_waypoints_valid.
  - now apply setattr_data_valid.
  - rewrite setattr_layer_status_run. exact H.
  - rewrite setattr_travel_mode_run.
    destruct (existsb (String.eqb value) ALLOWED_TRAVEL_MODES); exact H.
  - exact H.
  - exact H.
  - exact H.
  - exact H.
Qed.

Lemma hands_off_valid (self : Directions) :
  reachable_hands_off self -> valid_widget self = true.
Proof.
  induction 1 as [st en w kwargs ev self H | self self' R IH A].
  - apply init_success in H. tauto.
  - eapply assignment_keeps_valid; eassumption.
Qed.

(** X9: in every object a program can hold, after any sequence of
    assignments to any of its traits ([data_bounds] and the flags
    included), returning or raising, [travel_mode] is one of the four
    allowed modes, [data] is [None] or a list of two or more points, and
    every point of the route is in range.  The corners of [data_bounds]
    are in range too as long as the program has not assigned
    [data_bounds] itself. *)
Theorem reachable_invariants :
  (forall self,
      reachable self ->
      In (travel_mode self) ALLOWED_TRAVEL_MODES /\
      (data self = None \/
       exists d, data self = Some d /\ (2 <= List.length d)%nat) /\
      (forall p, In p (all_data self) -> in_range p)) /\
  (forall self,
      reachable_hands_off self ->
      forall p, In p (data_bounds self) -> in_range p).
Proof.
  split.
  - intros self R. rewrite <- valid_route_iff.
    induction R as [st en w kwargs ev self H | self self' R IH A].
    + split; [eapply init_travel_mode; exact H|].
      apply init_success in H. destruct H as (V & D & _).
      split; [now left | apply valid_widget_route, V].
    + destruct IH as (M & D & V). split; [|split].
      * eapply assignment_keeps_travel_mode_allowed; eassumption.
      * eapply assignment_keeps_data_shape; eassumption.
      * eapply assignment_keeps_valid_route; eassumption.
  - intros self R p Hp. apply hands_off_valid in R.
    apply (proj1 (valid_widget_iff self) R).
    unfold stored_points. apply in_or_app. now right.
Qed.

End Traits.

(** * The theorems at work on the documented route *)

Example sample_layer_constructed :
  Directions___init__ Py.TraitError (Some geneva) (Some zurich)
    (Some [amsterdam]) no_kwargs tt =
  ([Print "validating"], tt, inr sample_layer).
Proof. vm_compute. reflexivity. Qed.

Example sample_layer_from_factory :
  directions_layer Py.TraitError (Some geneva) (Some zurich) (Some [amsterdam])
    false "DRIVING" false false false tt =
  ([Print "validating"], tt, inr sample_layer).
Proof. vm_compute. reflexivity. Qed.

Example sample_box_both_ways :
  bounds_of (all_data sample_layer) = inr (data_bounds sample_layer) /\
  single_pass_bounds (all_data sample_layer) = Some (data_bounds sample_layer).
Proof. vm_compute. split; reflexivity. Qed.

Example sample_data_keeps_walking :
  let walker := mk_Directions geneva zurich [] None [geneva; zurich]
                  true false true false "WALKING" "OK" in
  let after := state_of (setattr_data Py.TraitError (Some sample_data) walker) in
  waypoints after = [amsterdam] /\
  travel_mode after = "WALKING"%string /\
  avoid_ferries after = true /\ avoid_tolls after = true.
Proof. vm_compute. repeat split. Qed.

(** A legacy list whose last point is off the map, assigned to [data]:
    [start] is stored before [end] is refused.  If the refusal is a
    [TraitError] the old [start] is put back and no observer runs; if it
    is any other exception the new [start] stays and the box follows. *)
Example partial_data_rolled_back :
  let r := setattr_data Py.TraitError (Some [amsterdam; off_the_map]) sample_layer in
  outcome_of r = inl Py.TraitError /\
  start (state_of r) = geneva /\
  data_bounds (state_of r) = data_bounds sample_layer.
Proof. vm_compute. repeat split. Qed.

Example partial_data_not_rolled_back :
  let refused := Py.Exception "not a valid latitude" in
  let r := setattr_data refused (Some [amsterdam; off_the_map]) sample_layer in
  outcome_of r = inl refused /\
  start (state_of r) = amsterdam /\
  data_bounds (state_of r) =
    [ (474 # 10, 488969 # 100000); (5237403 # 100000, 85 # 10) ].
Proof. vm_compute. repeat split. Qed.

Lemma sample_data_in_range (p : point) : In p sample_data -> in_range p.
Proof.
  intros [<- | [<- | [<- | []]]]; apply valid_point_iff; reflexivity.
Defined.

Lemma off_the_map_out_of_range : out_of_range off_the_map.
Proof.
  intro H. apply valid_point_iff in H. discriminate H.
Defined.

Lemma data_bounds_is_minimal_rectangle_witness :
  let self' := state_of (setattr_start Py.TraitError (Some amsterdam) sample_layer) in
  route_update Py.TraitError sample_layer self' /\
  route_differs sample_layer self' = true /\
  is_bounding_box (all_data self') (data_bounds self').
Proof.
  assert (U : route_update Py.TraitError sample_layer
                (state_of (setattr_start Py.TraitError (Some amsterdam) sample_layer))).
  { apply (update_start Py.TraitError (Some amsterdam) sample_layer []).
    vm_compute. reflexivity. }
  split; [exact U|]. split; [vm_compute; reflexivity|].
  apply (data_bounds_is_minimal_rectangle Py.TraitError sample_layer _ U).
  vm_compute. reflexivity.
Defined.

Lemma data_bounds_shape_invariant_witness :
  bounds_shape (data_bounds sample_layer) /\
  bounds_shape
    (data_bounds (state_of (setattr_end Py.TraitError (Some amsterdam) sample_layer))).
Proof.
  assert (S0 : bounds_shape (data_bounds sample_layer)).
  { apply (proj1 (data_bounds_shape_invariant Py.TraitError)
             (Some geneva) (Some zurich) (Some [amsterdam]) no_kwargs
             [Print "validating"]).
    vm_compute. reflexivity. }
  split; [exact S0|].
  apply (proj2 (data_bounds_shape_invariant Py.TraitError) sample_layer).
  - apply (update_end Py.TraitError (Some amsterdam) sample_layer []).
    vm_compute. reflexivity.
  - right. exact S0.
Defined.

Lemma geographic_inputs_are_validated_witness :
  out_of_range off_the_map /\
  setattr_start Py.TraitError (Some off_the_map) sample_layer =
    ([], sample_layer, inl Py.TraitError) /\
  setattr_waypoints Py.TraitError (Some [amsterdam; off_the_map]) sample_layer =
    ([], sample_layer, inl Py.TraitError) /\
  (forall p,
      In p (stored_points (state_of (setattr_data Py.TraitError
                                       (Some [zurich; off_the_map]) sample_layer))) ->
      in_range p).
Proof.
  pose proof (geographic_inputs_are_validated Py.TraitError) as (A & B & C & D).
  split; [exact off_the_map_out_of_range|].
  split; [apply (A sample_layer off_the_map off_the_map_out_of_range)|].
  split.
  - apply (B sample_layer [amsterdam; off_the_map] off_the_map).
    + right. left. reflexivity.
    + exact off_the_map_out_of_range.
  - apply (D sample_layer).
    + apply (C (Some geneva) (Some zurich) (Some [amsterdam]) no_kwargs
               [Print "validating"]).
      vm_compute. reflexivity.
    + right. right. right. eexists. reflexivity.
Defined.

Lemma layer_status_raises_iff_witness :
  layer_status sample_layer <> "ZERO_RESULTS"%string /\
  outcome_of (setattr_layer_status "ZERO_RESULTS" sample_layer) =
    inl (Py.DirectionsServiceException "No directions returned: ZERO_RESULTS").
Proof.
  assert (H : layer_status sample_layer <> "ZERO_RESULTS"%string) by discriminate.
  split; [exact H|].
  apply (layer_status_raises_iff sample_layer "ZERO_RESULTS" H). discriminate.
Defined.

Lemma destructure_data_roundtrip_witness :
  (2 <= List.length sample_data)%nat /\
  exists start end_ waypoints,
    _destructure_data sample_data = inr (start, end_, waypoints) /\
    Py.index sample_data 0 = inr start /\
    Py.index sample_data (-1) = inr end_ /\
    Py.slice sample_data 1 (-1) = waypoints /\
    [start] ++ waypoints ++ [end_] = sample_data.
Proof.
  assert (H : (2 <= List.length sample_data)%nat) by (cbn; lia).
  split; [exact H|]. exact (destructure_data_roundtrip sample_data H).
Defined.

Lemma data_is_normalised_witness :
  (2 <= List.length sample_data)%nat /\
  (forall p, In p sample_data -> in_range p) /\
  exists ev self',
    setattr_data Py.TraitError (Some sample_data) sample_layer
      = (ev, self', inr tt) /\
    Py.index sample_data 0 = inr (start self') /\
    Py.index sample_data (-1) = inr (end_ self') /\
    Py.slice sample_data 1 (-1) = waypoints self'.
Proof.
  assert (H : (2 <= List.length sample_data)%nat) by (cbn; lia).
  split; [exact H|]. split; [exact sample_data_in_range|].
  apply (proj2 (proj2 (data_is_normalised Py.TraitError sample_data H
                         sample_data_in_range))).
  reflexivity.
Defined.

Lemma data_discards_waypoints_witness :
  let kwargs := mk_Kwargs (Some sample_data) None None None None None in
  kw_data kwargs = Some sample_data /\
  Directions___init__ Py.TraitError None None (Some [zurich]) kwargs tt =
    Directions___init__ Py.TraitError None None None kwargs tt /\
  Directions___init__ Py.TraitError (Some geneva) None None kwargs tt =
    ([DeprecationWarning obsolete_data_message], tt,
     inl (Py.ValueError both_data_and_route_message)).
Proof.
  pose proof (data_discards_waypoints Py.TraitError
                (mk_Kwargs (Some sample_data) None None None None None)
                sample_data eq_refl) as (A & _ & C).
  split; [reflexivity|]. split; [apply A|].
  apply C. left. discriminate.
Defined.



(** C2 as first stated fails on an object that exists: the layer is
    constructed, [data] is assigned, [start] is moved to Amsterdam, and
    the same list is assigned to [data] again.  The list equals the
    value the trait holds, no observer runs, and [start] is not
    [data[0]]. *)
Lemma data_reassigned_is_not_normalised :
  Directions___init__ Py.TraitError (Some geneva) (Some zurich)
    (Some [amsterdam]) no_kwargs tt
  = ([Print "validating"], tt, inr sample_layer) /\
  let self1 := state_of (setattr_data Py.TraitError (Some sample_data) sample_layer) in
  let self2 := state_of (setattr_start Py.TraitError (Some amsterdam) self1) in
  let r := setattr_data Py.TraitError (Some sample_data) self2 in
  (2 <= List.length sample_data)%nat /\
  (forall p, In p sample_data -> in_range p) /\
  outcome_of r = inr tt /\
  Py.index sample_data 0 = inr geneva /\
  start (state_of r) = amsterdam /\
  Py.index sample_data 0 <> inr (start (state_of r)).
Proof.
  cbv zeta. split; [vm_compute; reflexivity|].
  split; [cbn; lia|]. split; [exact sample_data_in_range|].
  split; [vm_compute; reflexivity|]. split; [vm_compute; reflexivity|].
  split; [vm_compute; reflexivity|].
  vm_compute. intro H. discriminate H.
Qed.

(** * More of the code at work on the documented route *)

(** The sample layer after a legacy list with a point off the map was
    refused, and after the end was then moved to Amsterdam. *)
Lemma sample_layer_hands_off :
  reachable_hands_off Py.TraitError
    (state_of (setattr_end Py.TraitError (Some amsterdam)
       (state_of (setattr_data Py.TraitError (Some [zurich; off_the_map])
                    sample_layer)))).
Proof.
  apply (hands_off_assigned Py.TraitError
           (state_of (setattr_data Py.TraitError (Some [zurich; off_the_map])
                        sample_layer))).
  - apply (hands_off_assigned Py.TraitError sample_layer).
    + apply (hands_off_constructed Py.TraitError (Some geneva) (Some zurich)
               (Some [amsterdam]) no_kwargs [Print "validating"]).
      vm_compute. reflexivity.
    + apply assign_data.
  - apply assign_end.
Defined.

(** The sample layer after its box was overwritten from outside and a
    flag was switched. *)
Lemma sample_layer_overwritten :
  reachable Py.TraitError
    (state_of (setattr_avoid_tolls true
       (state_of (setattr_data_bounds [(1000, 1000); (0, 0)] sample_layer)))).
Proof.
  apply (reach_assigned Py.TraitError
           (state_of (setattr_data_bounds [(1000, 1000); (0, 0)] sample_layer))).
  - apply (reach_assigned Py.TraitError sample_layer).
    + apply (reach_constructed Py.TraitError (Some geneva) (Some zurich)
               (Some [amsterdam]) no_kwargs [Print "validating"]).
      vm_compute. reflexivity.
    + apply assign_data_bounds.
  - apply assign_elsewhere. apply assign_avoid_tolls.
Defined.

(** An overwritten box stays wrong until the route changes. *)
Example overwritten_box_is_not_the_route_box :
  let self := state_of (setattr_data_bounds [(1000, 1000); (0, 0)] sample_layer) in
  box_consistent self = false /\
  box_consistent (state_of (setattr_start Py.TraitError (Some geneva) self))
  = false /\
  box_consistent (state_of (setattr_start Py.TraitError (Some amsterdam) self))
  = true.
Proof. vm_compute. repeat split. Qed.

Lemma data_bounds_encloses_route_unless_overwritten_witness :
  let self := state_of (setattr_end Py.TraitError (Some amsterdam)
                (state_of (setattr_data Py.TraitError
                             (Some [zurich; off_the_map]) sample_layer))) in
  reachable_hands_off Py.TraitError self /\
  encloses (data_bounds self) (all_data self).
Proof.
  split; [exact sample_layer_hands_off|].
  exact (proj2 (proj1 (data_bounds_encloses_route_unless_overwritten
                         Py.TraitError) _ sample_layer_hands_off)).
Defined.

Lemma reachable_invariants_witness :
  let self := state_of (setattr_avoid_tolls true
                (state_of (setattr_data_bounds [(1000, 1000); (0, 0)]
                             sample_layer))) in
  reachable Py.TraitError self /\
  In (travel_mode self) ALLOWED_TRAVEL_MODES /\
  (forall p, In p (all_data self) -> in_range p).
Proof.
  split; [exact sample_layer_overwritten|].
  pose proof (proj1 (reachable_invariants Py.TraitError) _
                sample_layer_overwritten) as (A & _ & C).
  split; [exact A | exact C].
Defined.

Lemma bounds_of_same_points_witness :
  all_data sample_layer <> [] /\
  same_points (all_data sample_layer) (rev (all_data sample_layer)) /\
  exists box box',
    bounds_of (all_data sample_layer) = inr box /\
    bounds_of (rev (all_data sample_layer)) = inr box' /\
    points_eqb box box' = true.
Proof.
  assert (N : all_data sample_layer <> []) by discriminate.
  split; [exact N|]. split; [apply same_points_rev|].
  exact (bounds_of_same_points _ _ N (same_points_rev _)).
Defined.

Lemma geneva_in_range : in_range geneva.
Proof. apply valid_point_iff. reflexivity. Defined.

Lemma zurich_in_range : in_range zurich.
Proof. apply valid_point_iff. reflexivity. Defined.

Lemma amsterdam_only_in_range (p : point) : In p [amsterdam] -> in_range p.
Proof. intros [<- | []]. apply valid_point_iff. reflexivity. Defined.

Lemma walking_allowed : In "WALKING"%string ALLOWED_TRAVEL_MODES.
Proof. right. right. right. left. reflexivity. Defined.

Lemma directions_layer_returns_witness :
  in_range geneva /\ in_range zurich /\
  (forall p, In p [amsterdam] -> in_range p) /\
  In "WALKING"%string ALLOWED_TRAVEL_MODES /\
  exists box,
    bounds_of ([geneva] ++ [amsterdam] ++ [zurich]) = inr box /\
    directions_layer Py.TraitError (Some geneva) (Some zurich) (Some [amsterdam])
      true "WALKING" false true false tt =
    ([Print "validating"], tt,
     inr (mk_Directions geneva zurich [amsterdam] None box
            true false true false "WALKING" EmptyString)).
Proof.
  split; [exact geneva_in_range|]. split; [exact zurich_in_range|].
  split; [exact amsterdam_only_in_range|]. split; [exact walking_allowed|].
  exact (directions_layer_returns Py.TraitError geneva zurich [amsterdam]
           true "WALKING" false true false geneva_in_range zurich_in_range
           amsterdam_only_in_range walking_allowed).
Defined.

Lemma directions_layer_only_validates_witness :
  outcome_of (directions_layer Py.TraitError (Some off_the_map) (Some zurich)
                None false "DRIVING" false false false tt)
  = inl Py.TraitError /\
  (Py.TraitError = Py.TraitError \/ Py.TraitError = Py.TraitError).
Proof.
  assert (O : outcome_of (directions_layer Py.TraitError (Some off_the_map)
                            (Some zurich) None false "DRIVING" false false
                            false tt)
              = inl Py.TraitError) by (vm_compute; reflexivity).
  split; [exact O|].
  exact (proj1 (directions_layer_only_validates Py.TraitError
                  (Some off_the_map) (Some zurich) None false "DRIVING"
                  false false false) Py.TraitError O).
Defined.

Lemma legacy_call_is_canonical_call_witness :
  _destructure_data sample_data = inr (geneva, zurich, [amsterdam]) /\
  outcome_of (Directions___init__ Py.TraitError None None None
                (mk_Kwargs (Some sample_data) None None None None None) tt)
  = outcome_of (Directions___init__ Py.TraitError (Some geneva) (Some zurich)
                  (Some [amsterdam]) no_kwargs tt).
Proof.
  assert (H : _destructure_data sample_data = inr (geneva, zurich, [amsterdam]))
    by (vm_compute; reflexivity).
  split; [exact H|].
  exact (proj1 (legacy_call_is_canonical_call Py.TraitError sample_data
                  geneva zurich [amsterdam] None None None None None None H)).
Defined.

Lemma constructor_short_data_witness :
  in_range geneva /\
  travel_mode_keyword_ok None /\
  Directions___init__ Py.TraitError None None None
    (mk_Kwargs (Some [geneva]) None None None None None) tt
  = ([DeprecationWarning obsolete_data_message; Print "validating"], tt,
     inr (mk_Directions geneva geneva [] None [geneva; geneva]
            false false false false DEFAULT_TRAVEL_MODE EmptyString)) /\
  (List.length [geneva] < 2)%nat /\
  setattr_data Py.TraitError (Some [geneva]) sample_layer
  = ([], sample_layer, inl Py.TraitError).
Proof.
  pose proof (constructor_short_data Py.TraitError None None None None None None)
    as (_ & B & C).
  assert (L : (List.length [geneva] < 2)%nat) by (cbn; lia).
  split; [exact geneva_in_range|]. split; [exact I|].
  split; [exact (B geneva geneva_in_range I)|].
  split; [exact L|]. exact (C sample_layer [geneva] L).
Defined.

Lemma clearing_data_rearms_it_witness :
  (2 <= List.length sample_data)%nat /\
  (forall p, In p sample_data -> in_range p) /\
  exists ev self',
    setattr_data Py.TraitError (Some sample_data)
      (state_of (setattr_data Py.TraitError None sample_layer))
    = (ev, self', inr tt) /\
    all_data self' = sample_data /\ data self' = Some sample_data.
Proof.
  assert (L : (2 <= List.length sample_data)%nat) by (cbn; lia).
  split; [exact L|]. split; [exact sample_data_in_range|].
  exact (proj2 (clearing_data_rearms_it Py.TraitError sample_data sample_layer
                  L sample_data_in_range)).
Defined.

Lemma data_is_stored_before_it_is_checked_witness :
  (2 <= List.length [zurich; off_the_map])%nat /\
  data_eqb (data sample_layer) (Some [zurich; off_the_map]) = false /\
  data (state_of (setattr_data Py.TraitError (Some [zurich; off_the_map])
                    sample_layer))
  = Some [zurich; off_the_map] /\
  exists e,
    outcome_of (setattr_data Py.TraitError (Some [zurich; off_the_map])
                  sample_layer) = inl e.
Proof.
  assert (L : (2 <= List.length [zurich; off_the_map])%nat) by (cbn; lia).
  pose proof (data_is_stored_before_it_is_checked Py.TraitError
                [zurich; off_the_map] sample_layer L eq_refl) as (A & _ & C).
  split; [exact L|]. split; [reflexivity|]. split; [exact A|].
  apply C. exists off_the_map. split.
  - right. left. reflexivity.
  - exact off_the_map_out_of_range.
Defined.
